(** * mrpro: the k-space trajectory container [KTrajectory]

    A shallow embedding of [src/mrpro/data/_KTrajectory.py] together with the
    part of the tensor library it relies on, and the properties of the
    container: construction, broadcasting, stacking, conversion and the
    classification of the trajectory along its axes.

    Tensors are modelled by their dtype, their shape and their elements in
    row-major order.  Elements are rationals, standing for the values of the
    tensor's dtype: the container selects, replicates, compares and rounds
    them.  The one place where the code rounds to a machine format, the
    comparison of a tensor with the tolerance, is modelled with that
    rounding; elements beyond the range in which the formats hold every
    integer (2^24 for float32) or beyond the range of the integer types, as
    well as memory location and memory layout, are outside the model. *)

From Stdlib Require Import String List ZArith QArith Qabs Qround Qpower Bool Lia Lqa.
Import ListNotations.

Local Open Scope nat_scope.

(** ** Exceptions and fallible computations *)

(** The exceptions the code can raise.  [ValueError] and [IndexError] are
    Python's; [InvalidShape] is the error of the repeat reducer on an axis of
    length zero. *)
Inductive exn : Type :=
| ValueError (msg : string)
| IndexError (msg : string)
| RuntimeError (msg : string)
| InvalidShape (msg : string).

Inductive result (A : Type) : Type :=
| Ok (a : A)
| Err (e : exn).

Arguments Ok {A} a.
Arguments Err {A} e.

Definition bind {A B : Type} (r : result A) (k : A -> result B) : result B :=
  match r with
  | Ok a => k a
  | Err e => Err e
  end.

Notation "x <- r ;; k" := (bind r (fun x => k))
  (at level 61, r at next level, right associativity).

Definition is_ok {A : Type} (r : result A) : bool :=
  match r with Ok _ => true | Err _ => false end.

(** A Python [for] loop over a list whose body may raise. *)
Fixpoint for_each {A S : Type} (body : S -> A -> result S) (xs : list A) (s : S)
  : result S :=
  match xs with
  | [] => Ok s
  | x :: xs' => s' <- body s x ;; for_each body xs' s'
  end.

(** Python's index normalisation: [i] counts from the end when negative. *)
Definition norm_index (len : nat) (i : Z) : result nat :=
  if ((0 <=? i) && (i <? Z.of_nat len))%Z then Ok (Z.to_nat i)
  else if ((- Z.of_nat len <=? i) && (i <? 0))%Z then Ok (Z.to_nat (i + Z.of_nat len))
  else Err (IndexError "index out of range").

(** ** Tensors *)

Module Torch.

Inductive dtype : Type := int32 | int64 | float32 | float64.

Definition dtype_is_floating_point (d : dtype) : bool :=
  match d with
  | float32 | float64 => true
  | int32 | int64 => false
  end.

(** Type promotion between the modelled dtypes. *)
Definition promote_types (a b : dtype) : dtype :=
  match a, b with
  | float64, _ | _, float64 => float64
  | float32, _ | _, float32 => float32
  | int64, _ | _, int64 => int64
  | int32, int32 => int32
  end.

Record Tensor : Type := mkTensor {
  t_dtype : dtype;
  shape : list nat;
  data : list Q
}.

Definition is_floating_point (t : Tensor) : bool :=
  dtype_is_floating_point (t_dtype t).

Definition ndim (t : Tensor) : nat := length (shape t).

(** Number of elements of a shape. *)
Definition numel (s : list nat) : nat := fold_right Nat.mul 1 s.

(** All multi-indices of a shape, in row-major order. *)
Fixpoint indices (s : list nat) : list (list nat) :=
  match s with
  | [] => [[]]
  | n :: s' => flat_map (fun i => map (cons i) (indices s')) (seq 0 n)
  end.

(** Row-major position of a multi-index. *)
Fixpoint offset (s idx : list nat) : nat :=
  match s, idx with
  | _ :: s', i :: idx' => i * numel s' + offset s' idx'
  | _, _ => 0
  end.

(** [t[idx]] *)
Definition get (t : Tensor) (idx : list nat) : Q :=
  nth (offset (shape t) idx) (data t) 0%Q.

(** The tensor of shape [s] whose element at [idx] is [f idx]. *)
Definition build (d : dtype) (s : list nat) (f : list nat -> Q) : Tensor :=
  mkTensor d s (map f (indices s)).

Definition insert_at {A : Type} (d : nat) (x : A) (l : list A) : list A :=
  firstn d l ++ x :: skipn d l.

Definition remove_at {A : Type} (d : nat) (l : list A) : list A :=
  firstn d l ++ skipn (S d) l.

Definition set_at {A : Type} (d : nat) (x : A) (l : list A) : list A :=
  firstn d l ++ x :: skipn (S d) l.

(** [t.select(d, i)]: the slice of [t] at index [i] of axis [d]. *)
Definition select (t : Tensor) (d i : nat) : Tensor :=
  build (t_dtype t) (remove_at d (shape t))
        (fun idx => get t (insert_at d i idx)).

(** [torch.unbind(t, dim)]: the slices of [t] along [dim]. *)
Definition unbind (t : Tensor) (dim : Z) : result (list Tensor) :=
  d <- norm_index (ndim t) dim ;;
  Ok (map (select t d) (seq 0 (nth d (shape t) 0))).

(** The multi-index of [t] read at position [idx] of an expansion of [t]:
    the trailing axes are aligned and an axis of length one is read at 0. *)
Definition broadcast_index (s idx : list nat) : list nat :=
  map (fun p => if fst p =? 1 then 0 else snd p)
      (combine s (skipn (length idx - length s) idx)).

Fixpoint expandable_rev (s target : list nat) : bool :=
  match s, target with
  | [], _ => true
  | _ :: _, [] => false
  | a :: s', b :: target' => ((a =? b) || (a =? 1)) && expandable_rev s' target'
  end.

Definition expandable (s target : list nat) : bool :=
  expandable_rev (rev s) (rev target).

(** [t.expand(target)] *)
Definition expand (t : Tensor) (target : list nat) : result Tensor :=
  if expandable (shape t) target
  then Ok (build (t_dtype t) target (fun idx => get t (broadcast_index (shape t) idx)))
  else Err (RuntimeError "The expanded size of the tensor must match the existing size").

Definition list_eqb (a b : list nat) : bool :=
  if list_eq_dec Nat.eq_dec a b then true else false.

(** The stack of the equally shaped tensors [ts] along the new axis [d];
    [t0] is the first of them.  The dtype is promoted and the elements are
    kept as they are, which the promotion does for integers up to 2^24. *)
Definition stacked (ts : list Tensor) (t0 : Tensor) (d : nat) : Tensor :=
  build (fold_left promote_types (map t_dtype (tl ts)) (t_dtype t0))
        (insert_at d (length ts) (shape t0))
        (fun idx => get (nth (nth d idx 0) ts t0) (remove_at d idx)).

(** [torch.stack(ts, dim)] *)
Definition stack (ts : list Tensor) (dim : Z) : result Tensor :=
  match ts with
  | [] => Err (RuntimeError "stack expects a non-empty TensorList")
  | t0 :: rest =>
      if forallb (fun t => list_eqb (shape t) (shape t0)) rest then
        d <- norm_index (S (ndim t0)) dim ;;
        Ok (stacked ts t0 d)
      else Err (RuntimeError "stack expects each tensor to be equal size")
  end.

(** [t.float()]; the elements are kept as they are, which float32 does for
    integers up to 2^24. *)
Definition float (t : Tensor) : Tensor :=
  mkTensor float32 (shape t) (data t).

(** [torch.round]: to the nearest integer, halves to the even one. *)
Definition round_half_even (q : Q) : Z :=
  let f := Qfloor q in
  match Qcompare (q - inject_Z f) (1 # 2) with
  | Lt => f
  | Gt => (f + 1)%Z
  | Eq => if Z.even f then f else (f + 1)%Z
  end.

(** *** Binary floating-point formats *)

Definition pow2 (k : Z) : Q := Qpower 2 k.

(** The exponent of the binade of a positive rational [a]: the [e] with
    [2^e <= a < 2^(e+1)]. *)
Definition ilog2 (a : Q) : Z :=
  let e0 := (Z.log2 (Qnum a) - Z.log2 (Zpos (Qden a)))%Z in
  if Qle_bool (pow2 e0) a then e0 else (e0 - 1)%Z.

(** Rounding of [a >= 0] to the nearest value with [prec] significant bits
    and a last bit of weight at least [2^emin], halves to the even one. *)
Definition round_magnitude (prec emin : Z) (a : Q) : Q :=
  let k := Z.max (ilog2 a - (prec - 1)) emin in
  inject_Z (round_half_even (a / pow2 k)) * pow2 k.

(** Rounding to the nearest value of a binary format.  Beyond the largest
    finite value the format has an infinity where this gives a finite value
    of the same sign and at least that size; a comparison with a distance to
    the nearest integer, which is at most one half, comes out the same. *)
Definition round_to_format (prec emin : Z) (q : Q) : Q :=
  if Qle_bool 0 q then round_magnitude prec emin q
  else - round_magnitude prec emin (- q).

Definition binary32 (q : Q) : Q := round_to_format 24 (-149) q.
Definition binary64 (q : Q) : Q := round_to_format 53 (-1074) q.

(** A Python float compared with a tensor of dtype [d]: the float is a
    binary64 value and is cast to the dtype of the tensor. *)
Definition scalar_as (d : dtype) (q : Q) : Q :=
  match d with
  | float32 => binary32 (binary64 q)
  | _ => binary64 q
  end.

(** Conversion of the elements to [d]: to an integer type the fraction is
    dropped (towards zero), to a floating type the value is kept. *)
Definition cast_value (d : dtype) (q : Q) : Q :=
  if dtype_is_floating_point d then q
  else inject_Z (if Qle_bool 0 q then Qfloor q else Qceiling q).

(** [t.to(dtype)]; [None] leaves the dtype, as a conversion of the device or
    of the memory format only does.  Elements that the target type cannot
    hold (beyond the range of an integer type, or integers beyond 2^24 for
    float32) are outside the model. *)
Definition to (dt : option dtype) (t : Tensor) : Tensor :=
  match dt with
  | None => t
  | Some d =>
      if dtype_is_floating_point (t_dtype t) && negb (dtype_is_floating_point d)
      then mkTensor d (shape t) (map (cast_value d) (data t))
      else mkTensor d (shape t) (data t)
  end.

(** [t.cuda(...)] and [t.cpu(...)] move the elements and change none of the
    modelled attributes. *)
Definition cuda (t : Tensor) : Tensor := t.
Definition cpu (t : Tensor) : Tensor := t.

End Torch.

(** ** numpy *)

Module Numpy.

(** Broadcasting of two shapes, both given from the last axis backwards. *)
Fixpoint broadcast_rev (a b : list nat) : option (list nat) :=
  match a, b with
  | [], _ => Some b
  | _, [] => Some a
  | x :: a', y :: b' =>
      if x =? y then option_map (cons x) (broadcast_rev a' b')
      else if x =? 1 then option_map (cons y) (broadcast_rev a' b')
      else if y =? 1 then option_map (cons x) (broadcast_rev a' b')
      else None
  end.

Definition broadcast2 (a b : list nat) : option (list nat) :=
  option_map (@rev nat) (broadcast_rev (rev a) (rev b)).

(** [np.broadcast_shapes] of a list of shapes *)
Definition broadcast_shapes (shapes : list (list nat)) : result (list nat) :=
  match fold_left (fun acc s => match acc with
                                | Some a => broadcast2 a s
                                | None => None
                                end) shapes (Some [])
  with
  | Some s => Ok s
  | None => Err (ValueError "shape mismatch: objects cannot be broadcast to a single shape")
  end.

(** [np.bitwise_and.reduce] along one axis of length three. *)
Definition bitwise_and_reduce (cells : list Z) : Z :=
  fold_left Z.land cells (-1)%Z.

End Numpy.

(** ** [mrpro.data.enums.TrajType] *)

Module TrajType.

(** Modelled from the spec: the flag enumeration [TrajType] of
    [mrpro.data.enums] is not among the sources.  The spec describes two
    independent boolean flags, SINGLE_VALUE and ON_GRID, combined bitwise;
    they are the two lowest bits, and a value of the enumeration is the
    integer its flags add up to. *)
Definition SINGLEVALUE : Z := 1.
Definition ONGRID : Z := 2.

(** [TrajType(v)]: the member with value [v]. *)
Definition of_value (v : Z) : result Z :=
  if ((0 <=? v) && (v <=? 3))%Z then Ok v
  else Err (ValueError "not a valid TrajType").

Definition has (flag v : Z) : bool := negb (Z.land v flag =? 0)%Z.

End TrajType.

(** ** [mrpro.utils.remove_repeat] *)

(** Whether all elements of [t] along axis [d] are equal within [tol]. *)
Definition can_be_singleton (t : Torch.Tensor) (tol : Q) (d : nat) : bool :=
  forallb (fun idx =>
             forallb (fun j => Qle_bool
                                 (Qabs (Torch.get t idx - Torch.get t (Torch.set_at d j idx)))
                                 tol)
                     (seq 0 (nth d (Torch.shape t) 0)))
          (Torch.indices (Torch.shape t)).

Definition reduced_shape (t : Torch.Tensor) (tol : Q) : list nat :=
  map (fun d => if can_be_singleton t tol d then 1 else nth d (Torch.shape t) 0)
      (seq 0 (Torch.ndim t)).

(** Modelled from the spec: [remove_repeat] of [mrpro.utils] is not among the
    sources.  Given an array and a tolerance, every axis along which all
    values are equal within the tolerance is collapsed to length one, keeping
    the first value as the representative; an axis of length zero fails with
    an InvalidShape error. *)
Definition remove_repeat (t : Torch.Tensor) (tol : Q) : result Torch.Tensor :=
  if existsb (Nat.eqb 0) (Torch.shape t)
  then Err (InvalidShape "axis of length zero")
  else Ok (Torch.build (Torch.t_dtype t) (reduced_shape t tol) (Torch.get t)).

(** ** The container *)

Record KTrajectory : Type := mkKTrajectory {
  kz : Torch.Tensor;
  ky : Torch.Tensor;
  kx : Torch.Tensor;
  grid_detection_tolerance : Q;
  repeat_detection_tolerance : option Q
}.

(** The defaults of the two tolerance fields of the dataclass. *)
Definition default_grid_detection_tolerance : Q := 1 # 1000.
Definition default_repeat_detection_tolerance : option Q := Some (1 # 1000).

Definition as_any_float (tensor : Torch.Tensor) : Torch.Tensor :=
  if negb (Torch.is_floating_point tensor) then Torch.float tensor else tensor.

Definition broadcasted_shape (self : KTrajectory) : result (list nat) :=
  Numpy.broadcast_shapes
    [Torch.shape (kx self); Torch.shape (ky self); Torch.shape (kz self)].

Definition msg_broadcastable : string :=
  "The k-space trajectory dimensions must be broadcastable.".
Definition msg_dimensions : string :=
  "The k-space trajectory tensors should each have at least 4 dimensions.".

(** The first half of [__post_init__]: the fields after repeat reduction. *)
Definition reduce_repeats (self : KTrajectory) : result KTrajectory :=
  match repeat_detection_tolerance self with
  | Some tol =>
      z <- remove_repeat (kz self) tol ;;
      y <- remove_repeat (ky self) tol ;;
      x <- remove_repeat (kx self) tol ;;
      Ok (mkKTrajectory (as_any_float z) (as_any_float y) (as_any_float x)
                        (grid_detection_tolerance self)
                        (repeat_detection_tolerance self))
  | None => Ok self
  end.

Definition __post_init__ (self : KTrajectory) : result KTrajectory :=
  self <- reduce_repeats self ;;
  shape <- match broadcasted_shape self with
           | Ok shape => Ok shape
           | Err (ValueError _) => Err (ValueError msg_broadcastable)
           | Err e => Err e
           end ;;
  if length shape <? 4 then Err (ValueError msg_dimensions) else Ok self.

(** The call [KTrajectory(kz, ky, kx, grid_detection_tolerance,
    repeat_detection_tolerance)]: the fields are set, then [__post_init__]
    runs. *)
Definition new (kz ky kx : Torch.Tensor) (grid_detection_tolerance : Q)
           (repeat_detection_tolerance : option Q) : result KTrajectory :=
  __post_init__ (mkKTrajectory kz ky kx grid_detection_tolerance
                               repeat_detection_tolerance).

(** The message of the ValueError that unpacking [n] values into three names
    raises. *)
Definition unpack_message (n : nat) : string :=
  match n with
  | 0 => "not enough values to unpack (expected 3, got 0)"
  | 1 => "not enough values to unpack (expected 3, got 1)"
  | 2 => "not enough values to unpack (expected 3, got 2)"
  | _ => "too many values to unpack (expected 3)"
  end.

(** [kz, ky, kx = parts] *)
Definition unpack3 {A : Type} (parts : list A) : result (A * A * A) :=
  match parts with
  | [a; b; c] => Ok (a, b, c)
  | _ => Err (ValueError (unpack_message (length parts)))
  end.

Definition from_tensor (tensor : Torch.Tensor) (stack_dim : Z)
           (repeat_detection_tolerance : option Q) (grid_detection_tolerance : Q)
  : result KTrajectory :=
  parts <- Torch.unbind tensor stack_dim ;;
  zyx <- unpack3 parts ;;
  let '(kz, ky, kx) := zyx in
  new kz ky kx grid_detection_tolerance repeat_detection_tolerance.

(** The defaults of [from_tensor]. *)
Definition from_tensor_default_stack_dim : Z := 0.
Definition from_tensor_default_repeat_detection_tolerance : option Q :=
  Some (1 # 100000000).
Definition from_tensor_default_grid_detection_tolerance : Q := 1 # 1000.

(** The call [KTrajectory.from_tensor(tensor)]. *)
Definition from_tensor_with_defaults (tensor : Torch.Tensor) : result KTrajectory :=
  from_tensor tensor from_tensor_default_stack_dim
              from_tensor_default_repeat_detection_tolerance
              from_tensor_default_grid_detection_tolerance.

(** *** Classification *)

Definition matrix : Type := list (list Z).

Definition zeros (rows cols : nat) : matrix := repeat (repeat 0%Z cols) rows.

(** [m[r, c] |= v] *)
Definition ior_at (m : matrix) (r : nat) (c : Z) (v : Z) : result matrix :=
  match nth_error m r with
  | None => Err (IndexError "index out of range")
  | Some row =>
      j <- norm_index (length row) c ;;
      Ok (Torch.set_at r (Torch.set_at j (Z.lor (nth j row 0%Z) v) row) m)
  end.

(** [ks.shape[dim]] *)
Definition shape_at (ks : Torch.Tensor) (dim : Z) : result nat :=
  d <- norm_index (Torch.ndim ks) dim ;;
  Ok (nth d (Torch.shape ks) 0).

(** [not ks.is_floating_point() or torch.all((ks - ks.round()).abs() <= tolerance)];
    the comparison is made in the dtype of [ks], to which the tolerance is
    cast. *)
Definition values_on_grid (ks : Torch.Tensor) (tolerance : Q) : bool :=
  negb (Torch.is_floating_point ks)
  || forallb (fun x => Qle_bool (Qabs (x - inject_Z (Torch.round_half_even x)))
                                (Torch.scalar_as (Torch.t_dtype ks) tolerance))
             (Torch.data ks).

(** The body of the outer loop of [_traj_types]: the flags of the array [ks]
    are written to row [ind] of the matrix. *)
Definition traj_type_row (tolerance : Q) (m : matrix) (p : nat * Torch.Tensor)
  : result matrix :=
  let (ind, ks) := p in
  let on_grid := values_on_grid ks tolerance in
  for_each
    (fun m dim =>
       n <- shape_at ks dim ;;
       m <- (if n =? 1
             then ior_at m ind dim (Z.lor TrajType.SINGLEVALUE TrajType.ONGRID)
             else Ok m) ;;
       if on_grid then ior_at m ind dim TrajType.ONGRID else Ok m)
    [-3; -2; -1]%Z m.

(** The loops of [_traj_types] that fill the matrix of flags. *)
Definition traj_type_matrix (self : KTrajectory) (tolerance : Q) : result matrix :=
  for_each (traj_type_row tolerance)
           [(0, kz self); (1, ky self); (2, kx self)]
           (zeros 3 3).

Fixpoint map_result {A B : Type} (f : A -> result B) (l : list A) : result (list B) :=
  match l with
  | [] => Ok []
  | a :: l' => b <- f a ;; bs <- map_result f l' ;; Ok (b :: bs)
  end.

(** [np.bitwise_and.reduce(m, axis=1)] and [... axis=0)] *)
Definition reduce_axis1 (m : matrix) : list Z :=
  map Numpy.bitwise_and_reduce m.

Definition reduce_axis0 (m : matrix) : list Z :=
  map (fun j => Numpy.bitwise_and_reduce (map (fun row => nth j row 0%Z) m))
      (seq 0 (length (hd [] m))).

Definition _traj_types (self : KTrajectory) (tolerance : Q)
  : result ((Z * Z * Z) * (Z * Z * Z)) :=
  traj_type_matrix <- traj_type_matrix self tolerance ;;
  type_zyx <- map_result TrajType.of_value (reduce_axis1 traj_type_matrix) ;;
  type_210 <- map_result TrajType.of_value (reduce_axis0 traj_type_matrix) ;;
  match type_zyx, type_210 with
  | [z; y; x], [k2; k1; k0] => Ok ((z, y, x), (k2, k1, k0))
  | _, _ => Err (IndexError "list index out of range")
  end.

Definition type_along_kzyx (self : KTrajectory) : result (Z * Z * Z) :=
  r <- _traj_types self (grid_detection_tolerance self) ;; Ok (fst r).

Definition type_along_k210 (self : KTrajectory) : result (Z * Z * Z) :=
  r <- _traj_types self (grid_detection_tolerance self) ;; Ok (snd r).

(** *** Conversions *)

Definition as_tensor (self : KTrajectory) (stack_dim : Z) : result Torch.Tensor :=
  shape <- broadcasted_shape self ;;
  trajs <- map_result (fun traj => Torch.expand traj shape)
                      [kz self; ky self; kx self] ;;
  Torch.stack trajs stack_dim.

Definition as_tensor_default_stack_dim : Z := 0.

(** [to], [cuda] and [cpu] call the constructor with the three converted
    arrays and no other argument, so both tolerances take their defaults. *)
Definition to (self : KTrajectory) (dtype : option Torch.dtype) : result KTrajectory :=
  new (Torch.to dtype (kz self)) (Torch.to dtype (ky self)) (Torch.to dtype (kx self))
      default_grid_detection_tolerance default_repeat_detection_tolerance.

Definition cuda (self : KTrajectory) : result KTrajectory :=
  new (Torch.cuda (kz self)) (Torch.cuda (ky self)) (Torch.cuda (kx self))
      default_grid_detection_tolerance default_repeat_detection_tolerance.

Definition cpu (self : KTrajectory) : result KTrajectory :=
  new (Torch.cpu (kz self)) (Torch.cpu (ky self)) (Torch.cpu (kx self))
      default_grid_detection_tolerance default_repeat_detection_tolerance.

(** ** The classification as the specification words it *)

(** The length of the logical axis k2, k1 or k0 ([j] = 0, 1, 2) of an array:
    its last three axes. *)
Definition axis_length (ks : Torch.Tensor) (j : nat) : nat :=
  nth (Torch.ndim ks - 3 + j) (Torch.shape ks) 0.

(** Every element is within [tolerance] of an integer, that is, differs
    from its nearest integer by at most [tolerance]. *)
Definition all_near_integers (ks : Torch.Tensor) (tolerance : Q) : Prop :=
  Forall (fun x => exists n : Z, Qabs (x - inject_Z n) <= tolerance)%Q
         (Torch.data ks).

(** The flags of one cell: both flags when the axis has length one, and
    ON_GRID when the whole array is on the grid. *)
Definition flag_cell (ks : Torch.Tensor) (tolerance : Q) (j : nat) : Z :=
  Z.lor (if axis_length ks j =? 1
         then Z.lor TrajType.SINGLEVALUE TrajType.ONGRID else 0)
        (if values_on_grid ks tolerance then TrajType.ONGRID else 0).

Definition flag_row (ks : Torch.Tensor) (tolerance : Q) : list Z :=
  [flag_cell ks tolerance 0; flag_cell ks tolerance 1; flag_cell ks tolerance 2].

(** The documented layout (other, k2, k1, k0): the three arrays have the
    three trailing logical axes. *)
Definition has_logical_axes (self : KTrajectory) : Prop :=
  3 <= Torch.ndim (kz self) /\ 3 <= Torch.ndim (ky self) /\ 3 <= Torch.ndim (kx self).

(** ** Sample containers *)

Definition scalar4 (q : Q) : Torch.Tensor :=
  Torch.mkTensor Torch.float32 [1; 1; 1; 1] [q].

(** Two samples along k0 at a quarter past an integer. *)
Definition quarter_line : Torch.Tensor :=
  Torch.mkTensor Torch.float32 [1; 1; 1; 2] [1 # 4; 5 # 4].

(** The float32 value nearest to one tenth, which exceeds one tenth. *)
Definition tenth_in_float32 : Q := 13421773 # 134217728.

(** Two samples along k0, the second a tenth off the grid as float32 holds
    it. *)
Definition tenth_line : Torch.Tensor :=
  Torch.mkTensor Torch.float32 [1; 1; 1; 2] [0%Q; tenth_in_float32].

(** A container with that line as kx and a grid tolerance of one tenth. *)
Definition tenth_trajectory : KTrajectory :=
  mkKTrajectory (scalar4 0) (scalar4 0) tenth_line (1 # 10) (Some (1 # 1000)).

(** A stacked array whose axis 0 has length two. *)
Definition two_stacked : Torch.Tensor :=
  Torch.mkTensor Torch.float32 [2; 1; 1; 1; 2] [0; 1; 2; 3]%Q.

(** A container with a non-default grid tolerance of one half. *)
Definition sample_trajectory : KTrajectory :=
  mkKTrajectory (scalar4 0) (scalar4 0) quarter_line (1 # 2) (Some (1 # 1000)).

(** Two equal samples along k0, kept apart because repeat reduction is
    disabled. *)
Definition repeated_line : Torch.Tensor :=
  Torch.mkTensor Torch.float32 [1; 1; 1; 2] [5 # 4; 5 # 4].

Definition unreduced_trajectory : KTrajectory :=
  mkKTrajectory (scalar4 0) (scalar4 0) repeated_line (1 # 2) None.

(** ** Auxiliary notions for the statements *)

Definition map_ok {A B : Type} (f : A -> B) (r : result A) : result B :=
  match r with
  | Ok a => Ok (f a)
  | Err e => Err e
  end.

Definition with_grid_detection_tolerance (g : Q) (t : KTrajectory) : KTrajectory :=
  mkKTrajectory (kz t) (ky t) (kx t) g (repeat_detection_tolerance t).

(** The errors of construction that come from the shapes of the arrays. *)
Definition is_shape_error (e : exn) : bool :=
  match e with
  | ValueError msg =>
      if string_dec msg msg_broadcastable then true
      else if string_dec msg msg_dimensions then true else false
  | InvalidShape _ => true
  | _ => false
  end.

(** [n] equal samples along k0. *)
Definition constant_line (n : nat) (q : Q) : Torch.Tensor :=
  Torch.mkTensor Torch.float32 [1; 1; 1; n] (repeat q n).

(** ** Broadcast compatibility as the specification words it *)

(** The length of the [k]-th axis counted from the last one; an array that
    has no such axis counts as having length one there. *)
Definition axis_from_end (s : list nat) (k : nat) : nat := nth k (rev s) 1.

(** Two lengths of one axis are compatible when they are equal or one of
    them is one. *)
Definition compatible (a b : nat) : Prop := a = b \/ a = 1 \/ b = 1.

Definition mutually_broadcastable (a b c : list nat) : Prop :=
  forall k : nat,
    compatible (axis_from_end a k) (axis_from_end b k) /\
    compatible (axis_from_end a k) (axis_from_end c k) /\
    compatible (axis_from_end b k) (axis_from_end c k).

(** The length of an axis of the broadcast of two compatible lengths. *)
Definition join (x y : nat) : nat := if x =? 1 then y else x.

(** The number of axes of the broadcast of the three stored arrays. *)
Definition broadcast_rank (self : KTrajectory) : nat :=
  Nat.max (Torch.ndim (kx self)) (Nat.max (Torch.ndim (ky self)) (Torch.ndim (kz self))).

(** ** Auxiliary notions for the round trip *)

(** The same elements under another dtype, as type promotion in
    [torch.stack] leaves them. *)
Definition retype (d : Torch.dtype) (t : Torch.Tensor) : Torch.Tensor :=
  Torch.mkTensor d (Torch.shape t) (Torch.data t).

(** Equality of two arrays up to their dtype. *)
Definition same_elements (a b : Torch.Tensor) : Prop :=
  Torch.shape a = Torch.shape b /\ Torch.data a = Torch.data b.

(** Repeat reduction with an optional tolerance, as the constructor applies
    it to each array. *)
Definition repeat_reduced (rtol : option Q) (t : Torch.Tensor) : result Torch.Tensor :=
  match rtol with
  | Some tol => remove_repeat t tol
  | None => Ok t
  end.

(** A shape obtained from another by collapsing some of its axes. *)
Definition collapsed_shape (a s : list nat) : Prop :=
  Forall2 (fun x y => x = y \/ x = 1) a s.

(** ** Closed forms of the classification *)

(** The three logical axes of an array all have length one. *)
Definition all_length_one (ks : Torch.Tensor) : bool :=
  (axis_length ks 0 =? 1) && (axis_length ks 1 =? 1) && (axis_length ks 2 =? 1).

(** The type along one physical direction. *)
Definition direction_type (ks : Torch.Tensor) (tolerance : Q) : Z :=
  if all_length_one ks then Z.lor TrajType.SINGLEVALUE TrajType.ONGRID
  else if values_on_grid ks tolerance then TrajType.ONGRID
  else 0.

Definition axis_on_grid (ks : Torch.Tensor) (tolerance : Q) (j : nat) : bool :=
  (axis_length ks j =? 1) || values_on_grid ks tolerance.

(** The type along the logical axis k2, k1 or k0 ([j] = 0, 1, 2). *)
Definition axis_type (self : KTrajectory) (tolerance : Q) (j : nat) : Z :=
  if (axis_length (kz self) j =? 1) && (axis_length (ky self) j =? 1)
     && (axis_length (kx self) j =? 1)
  then Z.lor TrajType.SINGLEVALUE TrajType.ONGRID
  else if axis_on_grid (kz self) tolerance j && axis_on_grid (ky self) tolerance j
          && axis_on_grid (kx self) tolerance j
  then TrajType.ONGRID
  else 0.

(** Every flag of [a] is a flag of [b]. *)
Definition flags_included (a b : Z) : Prop := Z.land a b = a.

Definition triple_included (a b : Z * Z * Z) : Prop :=
  flags_included (fst (fst a)) (fst (fst b)) /\
  flags_included (snd (fst a)) (snd (fst b)) /\
  flags_included (snd a) (snd b).

(** A value of the enumeration without SINGLE_VALUE on its own. *)
Definition grid_consistent (v : Z) : Prop :=
  v = 0%Z \/ v = TrajType.ONGRID \/ v = Z.lor TrajType.SINGLEVALUE TrajType.ONGRID.

(** A tensor holds as many elements as its shape asks for. *)
Definition well_formed (t : Torch.Tensor) : Prop :=
  length (Torch.data t) = Torch.numel (Torch.shape t).

(** A stacked array of three directions, (3, 1, 1, 1, 2) with the values
    0 to 5. *)
Definition sample_stacked : Torch.Tensor :=
  Torch.mkTensor Torch.float32 [3; 1; 1; 1; 2] [0; 1; 2; 3; 4; 5]%Q.

(** The container that [from_tensor] makes of it along axis 0. *)
Definition sample_unstacked : KTrajectory :=
  mkKTrajectory (Torch.mkTensor Torch.float32 [1; 1; 1; 2] [0; 1]%Q)
                (Torch.mkTensor Torch.float32 [1; 1; 1; 2] [2; 3]%Q)
                (Torch.mkTensor Torch.float32 [1; 1; 1; 2] [4; 5]%Q)
                (1 # 1000) (Some (1 # 100000000)).

(** A container of integer arrays, as the constructor leaves them when
    repeat detection is disabled. *)
Definition integer_trajectory : KTrajectory :=
  mkKTrajectory (Torch.mkTensor Torch.int32 [1; 1; 1; 1] [0]%Q)
                (Torch.mkTensor Torch.int32 [1; 1; 2; 1] [0; 1]%Q)
                (Torch.mkTensor Torch.int64 [1; 1; 1; 2] [0; 1]%Q)
                (1 # 1000) None.

(** * The constraints operator [ConstraintsOp] *)

Module ConstraintsOp.

(** Python floats, as bounds and as the two [beta] parameters: a rational,
    an infinity or not-a-number. *)
Inductive pyfloat : Type :=
| Fin (q : Q)
| PosInf
| NegInf
| NaN.

Inductive py_error : Type :=
| ValueError (msg : string)
| ZeroDivisionError.

Inductive outcome (A : Type) : Type :=
| Done (a : A)
| Raise (e : py_error).

Arguments Done {A} a.
Arguments Raise {A} e.

Definition and_then {A B : Type} (r : outcome A) (k : A -> outcome B) : outcome B :=
  match r with
  | Done a => k a
  | Raise e => Raise e
  end.

Definition isnan (x : pyfloat) : bool :=
  match x with NaN => true | _ => false end.

Definition isposinf (x : pyfloat) : bool :=
  match x with PosInf => true | _ => false end.

Definition isneginf (x : pyfloat) : bool :=
  match x with NegInf => true | _ => false end.

(** [x <= y]; a comparison with not-a-number is false. *)
Definition le (x y : pyfloat) : bool :=
  match x, y with
  | NaN, _ | _, NaN => false
  | NegInf, _ | _, PosInf => true
  | Fin a, Fin b => Qle_bool a b
  | PosInf, _ | _, NegInf => false
  end.

(** [x >= y] *)
Definition ge (x y : pyfloat) : bool := le y x.

(** [-x] *)
Definition fneg (x : pyfloat) : pyfloat :=
  match x with
  | Fin q => Fin (- q)
  | PosInf => NegInf
  | NegInf => PosInf
  | NaN => NaN
  end.

(** [x - y] *)
Definition fsub (x y : pyfloat) : pyfloat :=
  match x, y with
  | NaN, _ | _, NaN => NaN
  | Fin a, Fin b => Fin (a - b)
  | PosInf, PosInf | NegInf, NegInf => NaN
  | PosInf, _ | _, NegInf => PosInf
  | NegInf, _ | _, PosInf => NegInf
  end.

(** [1 / x], which raises on zero. *)
Definition one_over (x : pyfloat) : outcome pyfloat :=
  match x with
  | Fin q => if Qeq_bool q 0 then Raise ZeroDivisionError else Done (Fin (/ q))
  | PosInf | NegInf => Done (Fin 0)
  | NaN => Done NaN
  end.

(** The operations of the tensor library the operator is written with; the
    numbers they compute are left to the library. *)
Class TensorOps (T : Type) : Type := {
  F_sigmoid : T -> T;
  F_logsigmoid : T -> T;
  torch_logit : T -> T;
  torch_log : T -> T;
  torch_expm1 : T -> T;
  neg : T -> T;                       (* -t *)
  add : T -> T -> T;                  (* t + t' *)
  scalar_mul : pyfloat -> T -> T;     (* s * t *)
  scalar_add : pyfloat -> T -> T;     (* s + t *)
  scalar_sub : pyfloat -> T -> T;     (* s - t *)
  sub_scalar : T -> pyfloat -> T;     (* t - s *)
  div_scalar : T -> pyfloat -> T      (* t / s *)
}.

Record ConstraintsOp : Type := mkConstraintsOp {
  beta_sigmoid : pyfloat;
  beta_softplus : pyfloat;
  lower_bounds : list (option pyfloat);
  upper_bounds : list (option pyfloat)
}.

(** The check of one pair of bounds in [__init__]; the first message is
    given without the quotation marks the code puts around nan. *)
Definition check_bound (bound : option pyfloat * option pyfloat) : outcome unit :=
  match bound with
  | (Some lb, Some ub) =>
      if isnan lb || isnan ub
      then Raise (ValueError "nan is not a valid lower or upper bound;")
      else if ge lb ub
      then Raise (ValueError "bounds should be ( (a1,b1), (a2,b2), ...) with ai < bi if neither ai or bi is None;")
      else Done tt
  | _ => Done tt
  end.

Fixpoint check_bounds (bounds : list (option pyfloat * option pyfloat)) : outcome unit :=
  match bounds with
  | [] => Done tt
  | bound :: rest => and_then (check_bound bound) (fun _ => check_bounds rest)
  end.

(** [ConstraintsOp(bounds, beta_sigmoid, beta_softplus)]; the messages are
    given without the offending value that the code appends. *)
Definition __init__ (bounds : list (option pyfloat * option pyfloat))
           (beta_sigmoid beta_softplus : pyfloat) : outcome ConstraintsOp :=
  if le beta_sigmoid (Fin 0)
  then Raise (ValueError "parameter beta_sigmoid must be greater than zero; given ")
  else if le beta_softplus (Fin 0)
  then Raise (ValueError "parameter beta_softplus must be greater than zero; given ")
  else and_then (check_bounds bounds)
         (fun _ => Done (mkConstraintsOp beta_sigmoid beta_softplus
                                         (map fst bounds) (map snd bounds))).

Definition default_beta : pyfloat := Fin 1.

(** The four cases that [forward] and [inverse] distinguish, in the order
    of their tests. *)
Definition is_set (b : option pyfloat) (excluded : pyfloat -> bool) : bool :=
  match b with
  | Some v => negb (excluded v)
  | None => false
  end.

Definition is_open (b : option pyfloat) (infinite : pyfloat -> bool) : bool :=
  match b with
  | Some v => infinite v
  | None => true
  end.

Definition is_not_none (b : option pyfloat) : bool :=
  match b with Some _ => true | None => false end.

(** The value of a bound known not to be [None]. *)
Definition value (b : option pyfloat) : pyfloat :=
  match b with Some v => v | None => NaN end.

Section Operator.

Context {T : Type} {ops : TensorOps T}.

Definition sigmoid (x : T) (beta : pyfloat) : T :=
  F_sigmoid (scalar_mul beta x).

Definition sigmoid_inverse (x : T) (beta : pyfloat) : T :=
  div_scalar (torch_logit x) beta.

Definition softplus (x : T) (beta : pyfloat) : outcome T :=
  and_then (one_over beta)
           (fun c => Done (scalar_mul (fneg c) (F_logsigmoid (scalar_mul (fneg beta) x)))).

Definition softplus_inverse (x : T) (beta : pyfloat) : T :=
  add (scalar_mul beta x) (torch_log (neg (torch_expm1 (scalar_mul (fneg beta) x)))).

(** The body of the loop of [forward] for one zipped item; [None] when no
    case applies and nothing is appended. *)
Definition forward_item (self : ConstraintsOp) (item : T) (lb ub : option pyfloat)
  : outcome (option T) :=
  if is_set lb isneginf && is_set ub isposinf then
    Done (Some (scalar_add (value lb)
                  (scalar_mul (fsub (value ub) (value lb))
                              (sigmoid item (beta_sigmoid self)))))
  else if is_not_none lb && is_open ub isposinf then
    and_then (softplus item (beta_softplus self))
             (fun s => Done (Some (scalar_add (value lb) s)))
  else if is_open lb isneginf && is_not_none ub then
    and_then (softplus (neg item) (beta_softplus self))
             (fun s => Done (Some (scalar_sub (value ub) s)))
  else if is_open lb isneginf && is_open ub isposinf then
    Done (Some item)
  else Done None.

Fixpoint forward_loop (self : ConstraintsOp)
         (zipped : list (T * (option pyfloat * option pyfloat)))
         (x_constrained : list T) : outcome (list T) :=
  match zipped with
  | [] => Done x_constrained
  | (item, (lb, ub)) :: rest =>
      and_then (forward_item self item lb ub)
               (fun r => forward_loop self rest
                           (match r with
                            | Some t => x_constrained ++ [t]
                            | None => x_constrained
                            end))
  end.

Definition forward (self : ConstraintsOp) (x : list T) : outcome (list T) :=
  and_then (forward_loop self
              (combine x (combine (lower_bounds self) (upper_bounds self))) [])
           (fun x_constrained =>
              Done (x_constrained ++ skipn (length x_constrained) x)).

Definition inverse_item (self : ConstraintsOp) (item : T) (lb ub : option pyfloat)
  : option T :=
  if is_set lb isneginf && is_set ub isposinf then
    Some (sigmoid_inverse (div_scalar (sub_scalar item (value lb))
                                      (fsub (value ub) (value lb)))
                          (beta_sigmoid self))
  else if is_not_none lb && is_open ub isposinf then
    Some (softplus_inverse (sub_scalar item (value lb)) (beta_softplus self))
  else if is_open lb isneginf && is_not_none ub then
    Some (neg (softplus_inverse (neg (sub_scalar item (value ub))) (beta_softplus self)))
  else if is_open lb isneginf && is_open ub isposinf then
    Some item
  else None.

Fixpoint inverse_loop (self : ConstraintsOp)
         (zipped : list (T * (option pyfloat * option pyfloat)))
         (x : list T) : list T :=
  match zipped with
  | [] => x
  | (item, (lb, ub)) :: rest =>
      inverse_loop self rest
                   (match inverse_item self item lb ub with
                    | Some t => x ++ [t]
                    | None => x
                    end)
  end.

Definition inverse (self : ConstraintsOp) (x_constrained : list T) : list T :=
  let x := inverse_loop self
             (combine x_constrained (combine (lower_bounds self) (upper_bounds self)))
             [] in
  x ++ skipn (length x) x_constrained.

End Operator.

(** A pair of bounds as [__init__] accepts it when both are given: the lower
    one strictly below the upper one, neither of them not-a-number. *)
Definition strictly_below (lb ub : pyfloat) : Prop :=
  match lb, ub with
  | Fin a, Fin b => (a < b)%Q
  | NegInf, Fin _ | Fin _, PosInf | NegInf, PosInf => True
  | _, _ => False
  end.

Definition admissible (bound : option pyfloat * option pyfloat) : Prop :=
  match bound with
  | (Some lb, Some ub) => strictly_below lb ub
  | _ => True
  end.

(** A positive parameter, or not-a-number, which [<= 0] lets through. *)
Definition accepted_beta (beta : pyfloat) : Prop :=
  match beta with
  | Fin q => (0 < q)%Q
  | PosInf | NaN => True
  | NegInf => False
  end.

(** A tensor library over the one-element type, to run the operator on. *)
Definition unit_ops : TensorOps unit :=
  {| F_sigmoid := fun t => t; F_logsigmoid := fun t => t; torch_logit := fun t => t;
     torch_log := fun t => t; torch_expm1 := fun t => t; neg := fun t => t;
     add := fun t _ => t; scalar_mul := fun _ t => t; scalar_add := fun _ t => t;
     scalar_sub := fun _ t => t; sub_scalar := fun t _ => t;
     div_scalar := fun t _ => t |}.

(** A tensor library over the booleans in which every operation returns
    [true], to tell a transformed tensor from the untouched [false]. *)
Definition marking_ops : TensorOps bool :=
  {| F_sigmoid := fun _ => true; F_logsigmoid := fun _ => true;
     torch_logit := fun _ => true; torch_log := fun _ => true;
     torch_expm1 := fun _ => true; neg := fun _ => true;
     add := fun _ _ => true; scalar_mul := fun _ _ => true;
     scalar_add := fun _ _ => true; scalar_sub := fun _ _ => true;
     sub_scalar := fun _ _ => true; div_scalar := fun _ _ => true |}.

End ConstraintsOp.


(** * Properties *)

(** ** Rounding *)

Module FloatFacts.
Import Torch.
Local Open Scope Q_scope.

Lemma pow2_pos (k : Z) : 0 < pow2 k.
Proof. apply Qpower_0_lt. reflexivity. Qed.

Lemma pow2_plus (a b : Z) : pow2 (a + b) == pow2 a * pow2 b.
Proof. apply Qpower_plus. discriminate. Qed.

Lemma pow2_le (a b : Z) : (a <= b)%Z -> pow2 a <= pow2 b.
Proof. intros H. apply Qpower_le_compat_l; [exact H | discriminate]. Qed.

Lemma pow2_lt_inv (a b : Z) : pow2 a < pow2 b -> (a < b)%Z.
Proof. intros H. apply (Qpower_lt_compat_l_inv 2); [exact H | reflexivity]. Qed.

Lemma pow2_Z (n : Z) : (0 <= n)%Z -> inject_Z (2 ^ n) == pow2 n.
Proof. intros H. unfold pow2. now rewrite Zpower_Qpower. Qed.

Lemma compare_cases (x y : Q) :
  match Qcompare x y with
  | Eq => x == y
  | Lt => x < y
  | Gt => y < x
  end.
Proof.
  destruct (Qcompare x y) eqn:E.
  - exact (proj2 (Qeq_alt x y) E).
  - exact (proj2 (Qlt_alt x y) E).
  - exact (proj2 (Qgt_alt x y) E).
Qed.

Lemma round_half_even_cases (x : Q) :
  (round_half_even x = Qfloor x /\ x - inject_Z (Qfloor x) <= 1 # 2) \/
  (round_half_even x = (Qfloor x + 1)%Z /\ 1 # 2 <= x - inject_Z (Qfloor x)).
Proof.
  unfold round_half_even.
  pose proof (compare_cases (x - inject_Z (Qfloor x)) (1 # 2)) as E.
  destruct (Qcompare (x - inject_Z (Qfloor x)) (1 # 2)).
  - destruct (Z.even (Qfloor x)); [left | right]; (split; [reflexivity | lra]).
  - left. split; [reflexivity | lra].
  - right. split; [reflexivity | lra].
Qed.

Lemma round_half_even_comp (x y : Q) :
  x == y -> round_half_even x = round_half_even y.
Proof.
  intros H. unfold round_half_even.
  rewrite (Qfloor_comp _ _ H).
  assert (Hc : x - inject_Z (Qfloor y) == y - inject_Z (Qfloor y)) by now rewrite H.
  now rewrite (Qcompare_comp _ _ Hc _ _ (Qeq_refl (1 # 2))).
Qed.

Lemma round_half_even_Z (n : Z) : round_half_even (inject_Z n) = n.
Proof.
  unfold round_half_even. rewrite Qfloor_Z.
  pose proof (compare_cases (inject_Z n - inject_Z n) (1 # 2)) as E.
  destruct (Qcompare (inject_Z n - inject_Z n) (1 # 2)).
  - exfalso. lra.
  - reflexivity.
  - exfalso. lra.
Qed.

Lemma floor_bounds (x : Q) :
  inject_Z (Qfloor x) <= x /\ x < inject_Z (Qfloor x) + 1.
Proof.
  split; [apply Qfloor_le|].
  pose proof (Qlt_floor x) as H. rewrite inject_Z_plus in H. exact H.
Qed.

Lemma round_half_even_mono (x y : Q) :
  x <= y -> (round_half_even x <= round_half_even y)%Z.
Proof.
  intros H. pose proof (Qfloor_resp_le _ _ H) as Hf.
  destruct (Z.eq_dec (Qfloor x) (Qfloor y)) as [Heq|Hne].
  - unfold round_half_even. rewrite Heq.
    pose proof (compare_cases (x - inject_Z (Qfloor y)) (1 # 2)) as Ex.
    pose proof (compare_cases (y - inject_Z (Qfloor y)) (1 # 2)) as Ey.
    destruct (Qcompare (x - inject_Z (Qfloor y)) (1 # 2));
      destruct (Qcompare (y - inject_Z (Qfloor y)) (1 # 2));
      try (destruct (Z.even (Qfloor y))); try lia; exfalso; lra.
  - destruct (round_half_even_cases x) as [[-> _]|[-> _]],
             (round_half_even_cases y) as [[-> _]|[-> _]]; lia.
Qed.

(** [round_half_even x] is an integer nearest to [x]. *)
Lemma round_half_even_nearest (x : Q) (n : Z) :
  Qabs (x - inject_Z (round_half_even x)) <= Qabs (x - inject_Z n).
Proof.
  destruct (floor_bounds x) as [Hlo Hhi].
  assert (Hn : (n <= Qfloor x)%Z \/ (Qfloor x + 1 <= n)%Z) by lia.
  assert (Hq : inject_Z n <= inject_Z (Qfloor x) \/ inject_Z (Qfloor x) + 1 <= inject_Z n).
  { destruct Hn as [Hn|Hn]; [left | right].
    - now rewrite Zle_Qle in Hn.
    - rewrite Zle_Qle, inject_Z_plus in Hn. exact Hn. }
  destruct (round_half_even_cases x) as [[-> Hr]|[-> Hr]];
    rewrite ?inject_Z_plus; change (inject_Z 1) with 1;
    apply Qabs_case; intros H1; apply Qabs_case; intros H2;
    destruct Hq as [Hq|Hq]; lra.
Qed.

Lemma ilog2_spec (a : Q) :
  0 < a -> pow2 (ilog2 a) <= a /\ a < pow2 (ilog2 a + 1).
Proof.
  intros Ha. destruct a as [n d].
  assert (Hn : (0 < n)%Z) by (unfold Qlt in Ha; cbn in Ha; lia).
  pose proof (Z.log2_spec n Hn) as [Hn1 Hn2].
  pose proof (Z.log2_spec (Zpos d) (Pos2Z.is_pos d)) as [Hd1 Hd2].
  pose proof (Z.log2_nonneg n) as Hln.
  pose proof (Z.log2_nonneg (Zpos d)) as Hld.
  rewrite Zle_Qle, pow2_Z in Hn1, Hd1 by lia.
  rewrite Zlt_Qlt, pow2_Z in Hn2, Hd2 by lia.
  unfold Z.succ in Hn2, Hd2.
  set (ln := Z.log2 n) in *. set (ld := Z.log2 (Zpos d)) in *.
  set (N := inject_Z n) in *. set (D := inject_Z (Zpos d)) in *.
  assert (HD : 0 < D) by (apply Qlt_le_trans with (pow2 ld); [apply pow2_pos | exact Hd1]).
  assert (Ha' : (n # d) * D == N).
  { unfold N, D. rewrite (Qmake_Qdiv n d). field.
    intros H. unfold Qeq in H. cbn in H. lia. }
  assert (Hup : n # d < pow2 (ln - ld + 1)).
  { apply Qnot_le_lt. intros H.
    assert (H1 : pow2 (ln - ld + 1) * pow2 ld <= (n # d) * D).
    { apply Qle_trans with ((n # d) * pow2 ld).
      - apply Qmult_le_compat_r; [exact H | apply Qlt_le_weak, pow2_pos].
      - rewrite !(Qmult_comm (n # d)). apply Qmult_le_compat_r; [exact Hd1|].
        now apply Qlt_le_weak. }
    rewrite <- pow2_plus, Ha' in H1.
    replace (ln - ld + 1 + ld)%Z with (ln + 1)%Z in H1 by lia.
    exact (Qlt_not_le _ _ Hn2 H1). }
  assert (Hlo : pow2 (ln - ld - 1) <= n # d).
  { apply Qnot_lt_le. intros H.
    assert (H1 : (n # d) * D < pow2 (ln - ld - 1) * pow2 (ld + 1)).
    { apply Qle_lt_trans with (pow2 (ln - ld - 1) * D).
      - apply Qmult_le_compat_r; [now apply Qlt_le_weak | now apply Qlt_le_weak].
      - rewrite !(Qmult_comm (pow2 (ln - ld - 1))).
        apply Qmult_lt_compat_r; [apply pow2_pos | exact Hd2]. }
    rewrite <- pow2_plus, Ha' in H1.
    replace (ln - ld - 1 + (ld + 1))%Z with ln in H1 by lia.
    exact (Qlt_not_le _ _ H1 Hn1). }
  unfold ilog2. cbn [Qnum Qden]. fold ln ld.
  destruct (Qle_bool (pow2 (ln - ld)) (n # d)) eqn:E.
  - apply Qle_bool_iff in E. split; [exact E | exact Hup].
  - split; [exact Hlo|].
    replace (ln - ld - 1 + 1)%Z with (ln - ld)%Z by lia.
    apply Qnot_le_lt. intros H. apply Qle_bool_iff in H. congruence.
Qed.

Lemma ilog2_mono (a b : Q) : 0 < a -> a <= b -> (ilog2 a <= ilog2 b)%Z.
Proof.
  intros Ha Hab.
  destruct (ilog2_spec a Ha) as [Ha1 _].
  destruct (ilog2_spec b (Qlt_le_trans _ _ _ Ha Hab)) as [_ Hb2].
  assert (H : pow2 (ilog2 a) < pow2 (ilog2 b + 1)) by lra.
  apply pow2_lt_inv in H. lia.
Qed.

Section Format.

Variables prec emin : Z.
Hypothesis prec_pos : (1 <= prec)%Z.

Let exponent (a : Q) : Z := Z.max (ilog2 a - (prec - 1)) emin.

Lemma scaled_mono (a b : Q) (k : Z) :
  a <= b ->
  inject_Z (round_half_even (a / pow2 k)) * pow2 k
  <= inject_Z (round_half_even (b / pow2 k)) * pow2 k.
Proof.
  intros H. apply Qmult_le_compat_r; [|apply Qlt_le_weak, pow2_pos].
  rewrite <- Zle_Qle. apply round_half_even_mono.
  apply Qmult_le_compat_r; [exact H|].
  apply Qinv_le_0_compat, Qlt_le_weak, pow2_pos.
Qed.

Lemma round_magnitude_zero (a : Q) : a == 0 -> round_magnitude prec emin a == 0.
Proof.
  intros H. unfold round_magnitude.
  rewrite (round_half_even_comp (a / pow2 _) (inject_Z 0)).
  - rewrite round_half_even_Z. apply Qmult_0_l.
  - unfold Qdiv. transitivity (0 * / pow2 (Z.max (ilog2 a - (prec - 1)) emin)).
    + apply Qmult_comp; [exact H | reflexivity].
    + apply Qmult_0_l.
Qed.

Lemma round_magnitude_nonneg (a : Q) : 0 <= a -> 0 <= round_magnitude prec emin a.
Proof.
  intros H. unfold round_magnitude.
  apply Qmult_le_0_compat; [|apply Qlt_le_weak, pow2_pos].
  change 0 with (inject_Z 0). rewrite <- Zle_Qle.
  rewrite <- (round_half_even_Z 0) at 1. apply round_half_even_mono.
  apply Qmult_le_0_compat; [exact H|].
  apply Qinv_le_0_compat, Qlt_le_weak, pow2_pos.
Qed.

Lemma round_magnitude_mono (a b : Q) :
  0 <= a -> a <= b -> round_magnitude prec emin a <= round_magnitude prec emin b.
Proof.
  intros Ha Hab.
  destruct (Qlt_le_dec 0 a) as [Hpos|Hzero].
  2: { rewrite (round_magnitude_zero a) by lra.
       apply round_magnitude_nonneg. lra. }
  assert (Hb : 0 < b) by lra.
  pose proof (ilog2_mono a b Hpos Hab) as Hlog.
  destruct (ilog2_spec a Hpos) as [_ Ha2].
  destruct (ilog2_spec b Hb) as [Hb1 _].
  unfold round_magnitude. fold (exponent a) (exponent b).
  set (ka := exponent a). set (kb := exponent b).
  assert (Hk : (ka <= kb)%Z) by (unfold ka, kb, exponent; lia).
  destruct (Z.eq_dec ka kb) as [Heq|Hne].
  { rewrite Heq. now apply scaled_mono. }
  assert (Hkb : kb = (ilog2 b - (prec - 1))%Z) by (unfold ka, kb, exponent in *; lia).
  assert (Hka : (ilog2 a + 1 <= ka + prec)%Z) by (unfold ka, exponent; lia).
  pose proof (pow2_Z prec ltac:(lia)) as Hp.
  pose proof (pow2_Z (prec - 1) ltac:(lia)) as Hp1.
  pose proof (pow2_plus prec ka) as Hpa.
  pose proof (pow2_plus (prec - 1) kb) as Hpb.
  pose proof (pow2_pos ka) as Pka. pose proof (pow2_pos kb) as Pkb.
  apply Qle_trans with (pow2 (prec + ka)).
  - rewrite Hpa. apply Qmult_le_compat_r; [|now apply Qlt_le_weak].
    rewrite <- Hp. rewrite <- Zle_Qle.
    rewrite <- (round_half_even_Z (2 ^ prec)). apply round_half_even_mono.
    apply Qle_shift_div_r; [exact Pka|].
    rewrite Hp, <- Hpa.
    apply Qle_trans with (pow2 (ilog2 a + 1)); [now apply Qlt_le_weak|].
    apply pow2_le. lia.
  - apply Qle_trans with (pow2 (prec - 1 + kb)); [apply pow2_le; lia|].
    rewrite Hpb. apply Qmult_le_compat_r; [|now apply Qlt_le_weak].
    rewrite <- Hp1. rewrite <- Zle_Qle.
    rewrite <- (round_half_even_Z (2 ^ (prec - 1))) at 1. apply round_half_even_mono.
    apply Qle_shift_div_l; [exact Pkb|].
    rewrite Hp1, <- Hpb.
    apply Qle_trans with (pow2 (ilog2 b)); [|exact Hb1].
    apply pow2_le. lia.
Qed.

Lemma round_to_format_mono (q q' : Q) :
  q <= q' -> round_to_format prec emin q <= round_to_format prec emin q'.
Proof.
  intros H. unfold round_to_format.
  destruct (Qle_bool 0 q) eqn:E; destruct (Qle_bool 0 q') eqn:E'.
  - apply Qle_bool_iff in E. now apply round_magnitude_mono.
  - apply Qle_bool_iff in E.
    assert (H' : ~ 0 <= q') by (intros H'; apply Qle_bool_iff in H'; congruence).
    exfalso. apply H'. lra.
  - apply Qle_bool_iff in E'.
    assert (Hq : ~ 0 <= q) by (intros H'; apply Qle_bool_iff in H'; congruence).
    apply Qnot_le_lt in Hq.
    pose proof (round_magnitude_nonneg (- q) ltac:(lra)).
    pose proof (round_magnitude_nonneg q' E'). lra.
  - assert (Hq : ~ 0 <= q) by (intros H'; apply Qle_bool_iff in H'; congruence).
    assert (Hq' : ~ 0 <= q') by (intros H'; apply Qle_bool_iff in H'; congruence).
    apply Qnot_le_lt in Hq, Hq'.
    pose proof (round_magnitude_mono (- q') (- q) ltac:(lra) ltac:(lra)). lra.
Qed.

End Format.

(** Casting the tolerance to the dtype of a tensor keeps the order of
    tolerances. *)
Lemma scalar_as_mono (d : dtype) (q q' : Q) :
  q <= q' -> scalar_as d q <= scalar_as d q'.
Proof.
  intros H.
  assert (H64 : binary64 q <= binary64 q')
    by (apply round_to_format_mono; [lia | exact H]).
  unfold scalar_as. destruct d; try exact H64.
  apply round_to_format_mono; [lia | exact H64].
Qed.

End FloatFacts.
(** ** Row-major indexing *)

Module TorchFacts.
Import Torch.

Lemma map_add_seq (b a n : nat) :
  map (fun k => b + k) (seq a n) = seq (b + a) n.
Proof.
  revert a. induction n as [|n IH]; intros a; [reflexivity|].
  cbn [seq map]. f_equal. rewrite IH. f_equal. lia.
Qed.

Lemma flat_map_seq_blocks (m n : nat) :
  flat_map (fun i => seq (i * m) m) (seq 0 n) = seq 0 (n * m).
Proof.
  induction n as [|n IH].
  - reflexivity.
  - rewrite seq_S, flat_map_app, IH. simpl. rewrite app_nil_r.
    replace (m + n * m) with (n * m + m) by lia.
    now rewrite seq_app.
Qed.

Lemma offset_indices (s : list nat) :
  map (offset s) (indices s) = seq 0 (numel s).
Proof.
  induction s as [|n s IH]; [reflexivity|].
  cbn [indices numel fold_right].
  fold (numel s).
  rewrite <- flat_map_seq_blocks.
  generalize (seq 0 n) as l.
  induction l as [|i l IHl]; [reflexivity|].
  cbn [flat_map]. rewrite map_app, IHl. f_equal.
  rewrite map_map. cbn [offset].
  rewrite <- (map_map (offset s) (fun k => i * numel s + k)), IH.
  rewrite map_add_seq. f_equal. lia.
Qed.

Lemma length_indices (s : list nat) : length (indices s) = numel s.
Proof.
  rewrite <- (length_map (offset s)), offset_indices. apply length_seq.
Qed.

Lemma in_indices (s idx : list nat) :
  In idx (indices s) <-> Forall2 lt idx s.
Proof.
  revert idx. induction s as [|n s IH]; intros idx; cbn [indices].
  - split.
    + intros [<-|[]]. constructor.
    + intros H. inversion H. now left.
  - rewrite in_flat_map. split.
    + intros (i & Hi & Hin). apply in_map_iff in Hin as (idx' & <- & Hin).
      apply in_seq in Hi. constructor; [lia|]. now apply IH.
    + intros H. inversion H as [|i n' idx' s' Hlt Hrest]; subst.
      exists i. split; [apply in_seq; lia|].
      apply in_map. now apply IH.
Qed.

Lemma offset_lt (s idx : list nat) :
  Forall2 lt idx s -> offset s idx < numel s.
Proof.
  intros H. apply in_indices in H.
  apply (in_map (offset s)) in H. rewrite offset_indices in H.
  apply in_seq in H. lia.
Qed.

Lemma nth_offset_indices (s idx d : list nat) :
  Forall2 lt idx s -> nth (offset s idx) (indices s) d = idx.
Proof.
  intros H. apply in_indices in H.
  destruct (In_nth _ _ d H) as (k & Hk & Hnth).
  rewrite length_indices in Hk.
  assert (Hoff : offset s idx = k).
  { rewrite <- Hnth.
    rewrite <- (map_nth (offset s)), offset_indices.
    rewrite (nth_indep _ _ 0) by (rewrite length_seq; lia).
    rewrite seq_nth by lia. reflexivity. }
  now rewrite Hoff.
Qed.

Lemma get_build (d : dtype) (s : list nat) (f : list nat -> Q) (idx : list nat) :
  Forall2 lt idx s -> get (build d s f) idx = f idx.
Proof.
  intros H. unfold get, build. cbn [shape data].
  rewrite (nth_indep _ _ (f [])) by (rewrite length_map, length_indices; now apply offset_lt).
  rewrite map_nth. now rewrite nth_offset_indices.
Qed.

Lemma build_ext (d : dtype) (s : list nat) (f g : list nat -> Q) :
  (forall idx, Forall2 lt idx s -> f idx = g idx) -> build d s f = build d s g.
Proof.
  intros H. unfold build. f_equal. apply map_ext_in.
  intros idx Hin. apply H. now apply in_indices.
Qed.


Lemma remove_insert {A : Type} (d : nat) (x : A) (l : list A) :
  d <= length l -> remove_at d (insert_at d x l) = l.
Proof.
  intros H. unfold remove_at, insert_at.
  rewrite firstn_app, length_firstn, Nat.min_l by exact H.
  rewrite Nat.sub_diag, firstn_O, app_nil_r, firstn_firstn, Nat.min_id.
  replace (S d) with (length (firstn d l) + 1) by (rewrite length_firstn; lia).
  rewrite skipn_app, Nat.add_comm, <- skipn_skipn, skipn_all, skipn_nil.
  rewrite length_firstn, Nat.min_l by exact H.
  replace (1 + d - d) with 1 by lia.
  cbn. apply firstn_skipn.
Qed.

Lemma nth_insert {A : Type} (d : nat) (x dflt : A) (l : list A) :
  d <= length l -> nth d (insert_at d x l) dflt = x.
Proof.
  intros H. unfold insert_at.
  rewrite app_nth2; rewrite length_firstn, Nat.min_l by exact H; [|lia].
  now rewrite Nat.sub_diag.
Qed.

Lemma length_insert {A : Type} (d : nat) (x : A) (l : list A) :
  length (insert_at d x l) = S (length l).
Proof.
  unfold insert_at. rewrite length_app. cbn [length].
  rewrite length_firstn, length_skipn. lia.
Qed.

Lemma Forall2_firstn {A B : Type} (R : A -> B -> Prop) (n : nat) (l : list A) (l' : list B) :
  Forall2 R l l' -> Forall2 R (firstn n l) (firstn n l').
Proof.
  intros H. revert n. induction H; intros [|n]; cbn; constructor; auto.
Qed.

Lemma Forall2_skipn {A B : Type} (R : A -> B -> Prop) (n : nat) (l : list A) (l' : list B) :
  Forall2 R l l' -> Forall2 R (skipn n l) (skipn n l').
Proof.
  intros H. revert n. induction H; intros [|n]; cbn; try constructor; auto.
Qed.

Lemma Forall2_insert {A B : Type} (R : A -> B -> Prop) (d : nat) (x : A) (y : B)
      (l : list A) (l' : list B) :
  R x y -> Forall2 R l l' -> Forall2 R (insert_at d x l) (insert_at d y l').
Proof.
  intros Hxy H. unfold insert_at. apply Forall2_app.
  - now apply Forall2_firstn.
  - constructor; [exact Hxy|]. now apply Forall2_skipn.
Qed.

Lemma map_nth_seq {A B : Type} (F : A -> B) (l : list A) (dflt : A) :
  map (fun i => F (nth i l dflt)) (seq 0 (length l)) = map F l.
Proof.
  induction l as [|a l IH]; [reflexivity|].
  cbn [length seq map]. f_equal.
  rewrite <- seq_shift, map_map. exact IH.
Qed.

Lemma norm_index_le (len : nat) (i : Z) (d : nat) :
  norm_index len i = Ok d -> d < len.
Proof.
  unfold norm_index.
  destruct ((0 <=? i) && (i <? Z.of_nat len))%Z eqn:E1.
  - intros [= <-]. apply andb_prop in E1 as [H1 H2]. lia.
  - destruct ((- Z.of_nat len <=? i) && (i <? 0))%Z eqn:E2; [|discriminate].
    intros [= <-]. apply andb_prop in E2 as [H1 H2]. lia.
Qed.

Lemma select_stacked (ts : list Tensor) (t0 : Tensor) (d i : nat) :
  d <= ndim t0 -> i < length ts ->
  select (stacked ts t0 d) d i =
  build (t_dtype (stacked ts t0 d)) (shape t0) (get (nth i ts t0)).
Proof.
  intros Hd Hi. unfold ndim in Hd. unfold select, stacked at 2.
  cbn [shape build t_dtype].
  rewrite remove_insert by exact Hd.
  apply build_ext. intros idx Hidx.
  pose proof (Forall2_length Hidx) as Hlen.
  unfold stacked. rewrite get_build.
  - rewrite nth_insert by lia. rewrite remove_insert by lia. reflexivity.
  - apply Forall2_insert; [lia | exact Hidx].
Qed.

(** The slices of a stack along the stacking axis are the stacked tensors,
    with the promoted dtype. *)
Lemma unbind_stack (ts : list Tensor) (dim : Z) (u : Tensor) :
  stack ts dim = Ok u ->
  unbind u dim =
  Ok (map (fun t => build (t_dtype u) (shape (hd u ts)) (get t)) ts).
Proof.
  unfold stack. destruct ts as [|t0 rest]; [discriminate|].
  destruct (forallb _ rest) eqn:Hshapes; [|discriminate].
  destruct (norm_index (S (ndim t0)) dim) as [d|e] eqn:Hd; [|discriminate].
  unfold bind. intros Hu. injection Hu as <-.
  pose proof (norm_index_le _ _ _ Hd) as Hle.
  unfold unbind.
  replace (ndim (stacked (t0 :: rest) t0 d)) with (S (ndim t0))
    by (unfold ndim, stacked, build; cbn [shape]; now rewrite length_insert).
  rewrite Hd. unfold bind.
  replace (nth d (shape (stacked (t0 :: rest) t0 d)) 0) with (length (t0 :: rest))
    by (unfold stacked, build; cbn [shape]; rewrite nth_insert; [reflexivity|unfold ndim in Hle; lia]).
  f_equal. unfold hd.
  rewrite <- (map_nth_seq _ (t0 :: rest) t0).
  apply map_ext_in. intros i Hi. apply in_seq in Hi.
  apply select_stacked; lia.
Qed.

End TorchFacts.

(** ** The matrix of flags *)

Lemma shape_at_trailing (ks : Torch.Tensor) :
  3 <= Torch.ndim ks ->
  shape_at ks (-3) = Ok (axis_length ks 0) /\
  shape_at ks (-2) = Ok (axis_length ks 1) /\
  shape_at ks (-1) = Ok (axis_length ks 2).
Proof.
  intros H. unfold shape_at, axis_length, norm_index.
  repeat split.
  all: match goal with
       | |- context [((0 <=? ?i) && _)%Z] =>
           replace ((0 <=? i) && (i <? Z.of_nat (Torch.ndim ks)))%Z with false
             by (symmetry; apply andb_false_iff; left; apply Z.leb_gt; lia);
           replace ((- Z.of_nat (Torch.ndim ks) <=? i) && (i <? 0))%Z with true
             by (symmetry; apply andb_true_iff; split;
                 [apply Z.leb_le; lia | apply Z.ltb_lt; lia])
       end.
  all: cbn [bind]; do 2 f_equal; lia.
Qed.

Ltac classify_row :=
  intros H; destruct (shape_at_trailing _ H) as (H3 & H2 & H1);
  unfold traj_type_row, flag_row, flag_cell;
  cbn [for_each]; rewrite H3, H2, H1; cbn [bind];
  destruct (axis_length _ 0 =? 1), (axis_length _ 1 =? 1), (axis_length _ 2 =? 1),
           (values_on_grid _ _);
  reflexivity.

Lemma traj_type_row_0 (tol : Q) (ks : Torch.Tensor) (r1 r2 : list Z) :
  3 <= Torch.ndim ks ->
  traj_type_row tol [[0; 0; 0]; r1; r2]%Z (0, ks) = Ok [flag_row ks tol; r1; r2].
Proof. classify_row. Qed.

Lemma traj_type_row_1 (tol : Q) (ks : Torch.Tensor) (r0 r2 : list Z) :
  3 <= Torch.ndim ks ->
  traj_type_row tol [r0; [0; 0; 0]; r2]%Z (1, ks) = Ok [r0; flag_row ks tol; r2].
Proof. classify_row. Qed.

Lemma traj_type_row_2 (tol : Q) (ks : Torch.Tensor) (r0 r1 : list Z) :
  3 <= Torch.ndim ks ->
  traj_type_row tol [r0; r1; [0; 0; 0]]%Z (2, ks) = Ok [r0; r1; flag_row ks tol].
Proof. classify_row. Qed.

Lemma traj_type_matrix_cells (self : KTrajectory) (tol : Q) :
  has_logical_axes self ->
  traj_type_matrix self tol =
  Ok [flag_row (kz self) tol; flag_row (ky self) tol; flag_row (kx self) tol].
Proof.
  intros (Hz & Hy & Hx). unfold traj_type_matrix. cbn [for_each zeros repeat].
  rewrite traj_type_row_0 by exact Hz. cbn [bind].
  rewrite traj_type_row_1 by exact Hy. cbn [bind].
  rewrite traj_type_row_2 by exact Hx. reflexivity.
Qed.

(** ** Classification *)

Lemma flag_cell_cases (ks : Torch.Tensor) (tol : Q) (j : nat) :
  flag_cell ks tol j = 0%Z \/ flag_cell ks tol j = 2%Z \/ flag_cell ks tol j = 3%Z.
Proof.
  unfold flag_cell.
  destruct (axis_length ks j =? 1), (values_on_grid ks tol); cbn; auto.
Qed.

Lemma of_value_land (a b c : Z) :
  (a = 0 \/ a = 2 \/ a = 3)%Z -> (b = 0 \/ b = 2 \/ b = 3)%Z -> (c = 0 \/ c = 2 \/ c = 3)%Z ->
  TrajType.of_value (Numpy.bitwise_and_reduce [a; b; c]) = Ok (Z.land (Z.land a b) c).
Proof.
  intros [->|[->| ->]] [->|[->| ->]] [->|[->| ->]]; reflexivity.
Qed.

Lemma values_on_grid_spec (ks : Torch.Tensor) (tol : Q) :
  values_on_grid ks tol = true <->
  Torch.is_floating_point ks = false \/
  all_near_integers ks (Torch.scalar_as (Torch.t_dtype ks) tol).
Proof.
  unfold values_on_grid, all_near_integers.
  rewrite orb_true_iff, negb_true_iff, forallb_forall, Forall_forall.
  split; (intros [H|H]; [now left | right]); intros x Hx.
  - exists (Torch.round_half_even x). apply Qle_bool_iff. now apply H.
  - destruct (H x Hx) as [n Hn]. apply Qle_bool_iff.
    eapply Qle_trans; [apply FloatFacts.round_half_even_nearest | exact Hn].
Qed.

Lemma traj_types_cells (self : KTrajectory) (tol : Q) :
  has_logical_axes self ->
  _traj_types self tol =
  Ok ((Z.land (Z.land (flag_cell (kz self) tol 0) (flag_cell (kz self) tol 1))
              (flag_cell (kz self) tol 2),
       Z.land (Z.land (flag_cell (ky self) tol 0) (flag_cell (ky self) tol 1))
              (flag_cell (ky self) tol 2),
       Z.land (Z.land (flag_cell (kx self) tol 0) (flag_cell (kx self) tol 1))
              (flag_cell (kx self) tol 2)),
      (Z.land (Z.land (flag_cell (kz self) tol 0) (flag_cell (ky self) tol 0))
              (flag_cell (kx self) tol 0),
       Z.land (Z.land (flag_cell (kz self) tol 1) (flag_cell (ky self) tol 1))
              (flag_cell (kx self) tol 1),
       Z.land (Z.land (flag_cell (kz self) tol 2) (flag_cell (ky self) tol 2))
              (flag_cell (kx self) tol 2))).
Proof.
  intros H. unfold _traj_types.
  rewrite (traj_type_matrix_cells self tol H). cbn [bind].
  unfold reduce_axis1, reduce_axis0, flag_row.
  cbn [map map_result hd length seq nth].
  rewrite !of_value_land by apply flag_cell_cases.
  reflexivity.
Qed.

(** The three arrays of a container, in the order of the rows of the matrix. *)
Lemma array_of_row (self : KTrajectory) (tol : Q) (ind : nat) (ks : Torch.Tensor) :
  nth_error [kz self; ky self; kx self] ind = Some ks ->
  nth ind [flag_row (kz self) tol; flag_row (ky self) tol; flag_row (kx self) tol] []
  = flag_row ks tol.
Proof.
  destruct ind as [|[|[|ind]]]; cbn; try congruence.
  destruct ind; discriminate.
Qed.

Lemma nth_flag_row (ks : Torch.Tensor) (tol : Q) (j : nat) :
  j < 3 -> nth j (flag_row ks tol) 0%Z = flag_cell ks tol j.
Proof.
  intros H. destruct j as [|[|[|j]]]; try reflexivity. lia.
Qed.

(** C4 (as amended): the ON_GRID flag of an array is evaluated once for
    the whole array.  It holds iff the array is not of a floating-point type
    or every element differs from its nearest integer by at most the
    grid-detection tolerance as cast to the dtype of the array, in which the
    comparison is made; and the cell of each of the three logical axes
    carries ON_GRID iff that holds or the axis has length one. *)
Theorem C4_on_grid_per_array (self : KTrajectory) (tolerance : Q) :
  has_logical_axes self ->
  exists m : matrix,
    traj_type_matrix self tolerance = Ok m /\
    forall (ind : nat) (ks : Torch.Tensor),
      nth_error [kz self; ky self; kx self] ind = Some ks ->
      (values_on_grid ks tolerance = true <->
       Torch.is_floating_point ks = false \/
       all_near_integers ks (Torch.scalar_as (Torch.t_dtype ks) tolerance)) /\
      forall j : nat, j < 3 ->
        TrajType.has TrajType.ONGRID (nth j (nth ind m []) 0%Z)
        = (axis_length ks j =? 1) || values_on_grid ks tolerance.
Proof.
  intros H. eexists. split; [exact (traj_type_matrix_cells self tolerance H)|].
  intros ind ks Hks. split; [apply values_on_grid_spec|].
  intros j Hj. rewrite (array_of_row _ _ _ _ Hks), nth_flag_row by exact Hj.
  unfold flag_cell.
  destruct (axis_length ks j =? 1), (values_on_grid ks tolerance); reflexivity.
Qed.

Lemma C4_on_grid_per_array_witness :
  exists m : matrix,
    traj_type_matrix sample_trajectory (1 # 2) = Ok m /\
    forall (ind : nat) (ks : Torch.Tensor),
      nth_error [kz sample_trajectory; ky sample_trajectory; kx sample_trajectory] ind
      = Some ks ->
      (values_on_grid ks (1 # 2) = true <->
       Torch.is_floating_point ks = false \/
       all_near_integers ks (Torch.scalar_as (Torch.t_dtype ks) (1 # 2))) /\
      forall j : nat, j < 3 ->
        TrajType.has TrajType.ONGRID (nth j (nth ind m []) 0%Z)
        = (axis_length ks j =? 1) || values_on_grid ks (1 # 2).
Proof.
  apply (C4_on_grid_per_array sample_trajectory (1 # 2)).
  unfold has_logical_axes. vm_compute. lia.
Defined.

(** C4 (as stated) fails.  The second sample of [tenth_line] is the float32
    value nearest to one tenth, which lies more than one tenth, and more
    than the Python float 0.1, from every integer; with a tolerance of 0.1
    the array is nevertheless on the grid, because the tolerance is cast to
    float32 for the comparison, and kx and k0 are classified ON_GRID. *)
Lemma C4_tolerance_is_cast_to_dtype :
  Torch.is_floating_point tenth_line = true /\
  ~ all_near_integers tenth_line (1 # 10) /\
  ~ all_near_integers tenth_line (Torch.binary64 (1 # 10)) /\
  values_on_grid tenth_line (1 # 10) = true /\
  new (scalar4 0) (scalar4 0) tenth_line (1 # 10) default_repeat_detection_tolerance
  = Ok tenth_trajectory /\
  type_along_kzyx tenth_trajectory = Ok (3, 3, 2)%Z /\
  type_along_k210 tenth_trajectory = Ok (3, 3, 2)%Z.
Proof.
  assert (Hfar : forall t : Q,
             (t < tenth_in_float32)%Q -> ~ all_near_integers tenth_line t).
  { intros t Ht H. unfold all_near_integers, tenth_line in H. cbn [Torch.data] in H.
    apply Forall_inv_tail, Forall_inv in H. destruct H as [n Hn].
    apply Qabs_Qle_condition in Hn. destruct Hn as [Hlo Hhi].
    assert (Hn : (n <= 0)%Z \/ (1 <= n)%Z) by lia.
    destruct Hn as [Hn|Hn]; rewrite Zle_Qle in Hn; unfold tenth_in_float32 in *;
      change (inject_Z 0) with 0%Q in *; change (inject_Z 1) with 1%Q in *; lra. }
  split; [reflexivity|].
  split; [apply Hfar; reflexivity|].
  split; [apply Hfar; vm_compute; reflexivity|].
  repeat split; vm_compute; reflexivity.
Qed.

(** C5: the classification along kz, ky, kx is the bitwise AND of the three
    cells of each row of the matrix of flags, and the classification along
    k2, k1, k0 is the bitwise AND of the three cells of each column of the
    same matrix. *)
Theorem C5_types_are_bitwise_and (self : KTrajectory) :
  has_logical_axes self ->
  exists z2 z1 z0 y2 y1 y0 x2 x1 x0 : Z,
    traj_type_matrix self (grid_detection_tolerance self)
    = Ok [[z2; z1; z0]; [y2; y1; y0]; [x2; x1; x0]] /\
    type_along_kzyx self
    = Ok (Z.land (Z.land z2 z1) z0, Z.land (Z.land y2 y1) y0, Z.land (Z.land x2 x1) x0) /\
    type_along_k210 self
    = Ok (Z.land (Z.land z2 y2) x2, Z.land (Z.land z1 y1) x1, Z.land (Z.land z0 y0) x0).
Proof.
  intros H. do 9 eexists.
  split; [exact (traj_type_matrix_cells self _ H)|].
  unfold type_along_kzyx, type_along_k210.
  rewrite (traj_types_cells self _ H). split; reflexivity.
Qed.

Lemma C5_types_are_bitwise_and_witness :
  exists z2 z1 z0 y2 y1 y0 x2 x1 x0 : Z,
    traj_type_matrix sample_trajectory (grid_detection_tolerance sample_trajectory)
    = Ok [[z2; z1; z0]; [y2; y1; y0]; [x2; x1; x0]] /\
    type_along_kzyx sample_trajectory
    = Ok (Z.land (Z.land z2 z1) z0, Z.land (Z.land y2 y1) y0, Z.land (Z.land x2 x1) x0) /\
    type_along_k210 sample_trajectory
    = Ok (Z.land (Z.land z2 y2) x2, Z.land (Z.land z1 y1) x1, Z.land (Z.land z0 y0) x0).
Proof.
  apply (C5_types_are_bitwise_and sample_trajectory).
  unfold has_logical_axes. vm_compute. lia.
Defined.

(** C6: in the cell of an axis of length one both SINGLE_VALUE and ON_GRID
    are set, whatever the elements and the tolerance, and SINGLE_VALUE is set
    in a cell only when its axis has length one. *)
Theorem C6_length_one_axis (self : KTrajectory) (tolerance : Q) :
  has_logical_axes self ->
  exists m : matrix,
    traj_type_matrix self tolerance = Ok m /\
    forall (ind : nat) (ks : Torch.Tensor),
      nth_error [kz self; ky self; kx self] ind = Some ks ->
      forall j : nat, j < 3 ->
        (axis_length ks j = 1 ->
         nth j (nth ind m []) 0%Z = Z.lor TrajType.SINGLEVALUE TrajType.ONGRID) /\
        (TrajType.has TrajType.SINGLEVALUE (nth j (nth ind m []) 0%Z) = true ->
         axis_length ks j = 1).
Proof.
  intros H. eexists. split; [exact (traj_type_matrix_cells self tolerance H)|].
  intros ind ks Hks j Hj.
  rewrite (array_of_row _ _ _ _ Hks), nth_flag_row by exact Hj.
  unfold flag_cell.
  destruct (axis_length ks j =? 1) eqn:E.
  - apply Nat.eqb_eq in E. split; [|auto].
    intros _. destruct (values_on_grid ks tolerance); reflexivity.
  - apply Nat.eqb_neq in E. split; [intros; contradiction|].
    destruct (values_on_grid ks tolerance); cbn; discriminate.
Qed.

Lemma C6_length_one_axis_witness :
  exists m : matrix,
    traj_type_matrix sample_trajectory (1 # 1000) = Ok m /\
    forall (ind : nat) (ks : Torch.Tensor),
      nth_error [kz sample_trajectory; ky sample_trajectory; kx sample_trajectory] ind
      = Some ks ->
      forall j : nat, j < 3 ->
        (axis_length ks j = 1 ->
         nth j (nth ind m []) 0%Z = Z.lor TrajType.SINGLEVALUE TrajType.ONGRID) /\
        (TrajType.has TrajType.SINGLEVALUE (nth j (nth ind m []) 0%Z) = true ->
         axis_length ks j = 1).
Proof.
  apply (C6_length_one_axis sample_trajectory (1 # 1000)).
  unfold has_logical_axes. vm_compute. lia.
Defined.

(** ** Construction *)

Lemma new_unfold (z y x : Torch.Tensor) (g : Q) (r : option Q) :
  new z y x g r =
  (self <- reduce_repeats (mkKTrajectory z y x g r) ;;
   match broadcasted_shape self with
   | Ok shape => if length shape <? 4 then Err (ValueError msg_dimensions) else Ok self
   | Err (ValueError _) => Err (ValueError msg_broadcastable)
   | Err e => Err e
   end).
Proof.
  unfold new, __post_init__.
  destruct (reduce_repeats _) as [self|e]; [|reflexivity].
  cbn [bind]. destruct (broadcasted_shape self) as [shape|[]]; reflexivity.
Qed.

Lemma broadcasted_shape_error (self : KTrajectory) (e : exn) :
  broadcasted_shape self = Err e -> exists msg, e = ValueError msg.
Proof.
  unfold broadcasted_shape, Numpy.broadcast_shapes.
  destruct (fold_left _ _ _); [discriminate|]. intros [= <-]. eauto.
Qed.

Lemma remove_repeat_error (t : Torch.Tensor) (tol : Q) (e : exn) :
  remove_repeat t tol = Err e -> is_shape_error e = true.
Proof.
  unfold remove_repeat. destruct (existsb _ _); [|discriminate].
  now intros [= <-].
Qed.

Lemma reduce_repeats_error (self : KTrajectory) (e : exn) :
  reduce_repeats self = Err e -> is_shape_error e = true.
Proof.
  unfold reduce_repeats. destruct (repeat_detection_tolerance self) as [tol|]; [|discriminate].
  destruct (remove_repeat (kz self) tol) eqn:Ez; cbn [bind];
    [|intros [= <-]; eapply remove_repeat_error; eassumption].
  destruct (remove_repeat (ky self) tol) eqn:Ey; cbn [bind];
    [|intros [= <-]; eapply remove_repeat_error; eassumption].
  destruct (remove_repeat (kx self) tol) eqn:Ex; cbn [bind];
    [discriminate|intros [= <-]; eapply remove_repeat_error; eassumption].
Qed.

Lemma reduce_repeats_tolerances (self stored : KTrajectory) :
  reduce_repeats self = Ok stored ->
  grid_detection_tolerance stored = grid_detection_tolerance self /\
  repeat_detection_tolerance stored = repeat_detection_tolerance self.
Proof.
  unfold reduce_repeats. destruct (repeat_detection_tolerance self) as [tol|] eqn:E.
  - destruct (remove_repeat (kz self) tol); cbn [bind]; [|discriminate].
    destruct (remove_repeat (ky self) tol); cbn [bind]; [|discriminate].
    destruct (remove_repeat (kx self) tol); cbn [bind]; [|discriminate].
    intros [= <-]. cbn. auto.
  - intros [= <-]. auto.
Qed.

Lemma reduce_repeats_grid_tolerance (z y x : Torch.Tensor) (g g' : Q) (r : option Q) :
  reduce_repeats (mkKTrajectory z y x g' r) =
  map_ok (with_grid_detection_tolerance g') (reduce_repeats (mkKTrajectory z y x g r)).
Proof.
  unfold reduce_repeats. cbn [repeat_detection_tolerance kz ky kx grid_detection_tolerance].
  destruct r as [tol|]; [|reflexivity].
  destruct (remove_repeat z tol); cbn [bind map_ok]; [|reflexivity].
  destruct (remove_repeat y tol); cbn [bind map_ok]; [|reflexivity].
  destruct (remove_repeat x tol); reflexivity.
Qed.

Lemma as_any_float_is_floating (t : Torch.Tensor) :
  Torch.is_floating_point (as_any_float t) = true.
Proof.
  destruct t as [d s l]. destruct d; reflexivity.
Qed.

Lemma as_any_float_elements (t : Torch.Tensor) :
  Torch.shape (as_any_float t) = Torch.shape t /\
  Torch.data (as_any_float t) = Torch.data t.
Proof.
  unfold as_any_float. destruct (negb _); split; reflexivity.
Qed.

(** C3 (as amended): construction does not validate the tolerances.  The
    grid-detection tolerance is stored as given and the outcome of the
    construction does not depend on it; both tolerances of a constructed
    container are the supplied ones, and every error of construction is one
    about the shapes of the arrays. *)
Theorem C3_tolerances_not_validated (z y x : Torch.Tensor) (g g' : Q) (r : option Q) :
  new z y x g' r = map_ok (with_grid_detection_tolerance g') (new z y x g r) /\
  match new z y x g r with
  | Ok t => grid_detection_tolerance t = g /\ repeat_detection_tolerance t = r
  | Err e => is_shape_error e = true
  end.
Proof.
  rewrite !new_unfold. split.
  - rewrite (reduce_repeats_grid_tolerance z y x g g' r).
    destruct (reduce_repeats (mkKTrajectory z y x g r)) as [self|e]; [|reflexivity].
    cbn [map_ok bind].
    change (broadcasted_shape (with_grid_detection_tolerance g' self))
      with (broadcasted_shape self).
    destruct (broadcasted_shape self) as [shape|[]]; try reflexivity.
    destruct (length shape <? 4); reflexivity.
  - destruct (reduce_repeats (mkKTrajectory z y x g r)) as [self|e] eqn:E; cbn [bind].
    + destruct (broadcasted_shape self) as [shape|e'] eqn:Es.
      * destruct (length shape <? 4); [reflexivity|].
        exact (reduce_repeats_tolerances _ _ E).
      * destruct (broadcasted_shape_error _ _ Es) as [msg ->]. reflexivity.
    + exact (reduce_repeats_error _ _ E).
Qed.

(** C3 (as stated) fails: a negative grid-detection tolerance and a negative
    repeat-detection tolerance are accepted. *)
Lemma C3_negative_tolerances_accepted :
  new (scalar4 0) (scalar4 0) quarter_line (-1) (Some (-1 # 1))
  = Ok (mkKTrajectory (scalar4 0) (scalar4 0) quarter_line (-1) (Some (-1 # 1))).
Proof. vm_compute. reflexivity. Qed.

(** C10: with repeat detection disabled the constructor stores the three
    arrays exactly as passed, integer arrays included, and succeeds exactly
    when the shapes as passed broadcast to at least four axes; with repeat
    detection enabled the three stored arrays are of a floating-point type. *)
Theorem C10_disabled_reduction_stores_as_passed (z y x : Torch.Tensor) (g : Q) :
  match Numpy.broadcast_shapes [Torch.shape x; Torch.shape y; Torch.shape z] with
  | Ok shape =>
      if length shape <? 4
      then new z y x g None = Err (ValueError msg_dimensions)
      else new z y x g None = Ok (mkKTrajectory z y x g None)
  | Err _ => new z y x g None = Err (ValueError msg_broadcastable)
  end /\
  forall tol : Q,
    match new z y x g (Some tol) with
    | Ok t => Torch.is_floating_point (kz t) = true /\
              Torch.is_floating_point (ky t) = true /\
              Torch.is_floating_point (kx t) = true
    | Err _ => True
    end.
Proof.
  split.
  - rewrite new_unfold. cbn [reduce_repeats repeat_detection_tolerance bind].
    unfold broadcasted_shape. cbn [kz ky kx].
    destruct (Numpy.broadcast_shapes _) as [shape|e] eqn:E.
    + destruct (length shape <? 4); reflexivity.
    + destruct (broadcasted_shape_error (mkKTrajectory z y x g None) e E) as [msg ->].
      reflexivity.
  - intros tol. rewrite new_unfold.
    unfold reduce_repeats. cbn [repeat_detection_tolerance kz ky kx grid_detection_tolerance].
    destruct (remove_repeat z tol) as [z'|]; cbn [bind]; [|exact I].
    destruct (remove_repeat y tol) as [y'|]; cbn [bind]; [|exact I].
    destruct (remove_repeat x tol) as [x'|]; cbn [bind]; [|exact I].
    destruct (broadcasted_shape _) as [shape|[]]; try exact I.
    destruct (length shape <? 4); [exact I|].
    cbn [kz ky kx]. repeat split; apply as_any_float_is_floating.
Qed.

(** An integer array stays an integer array when repeat detection is
    disabled. *)
Example integer_array_kept :
  let k := Torch.mkTensor Torch.int32 [1; 1; 1; 2] [0%Q; 1%Q] in
  map_ok (fun t => Torch.t_dtype (kx t)) (new (scalar4 0) (scalar4 0) k (1 # 1000) None)
  = Ok Torch.int32.
Proof. vm_compute. reflexivity. Qed.

(** ** Construction from a stacked array *)

(** C8 (as amended): [from_tensor] splits the array along the stack axis,
    which defaults to axis 0, into three slices passed in the order kz, ky,
    kx to the constructor; when that axis exists and does not have length
    three it fails with the ValueError of the unpacking into three names,
    and with an IndexError when the axis does not exist. *)
Theorem C8_from_tensor_splits_in_three
        (tensor : Torch.Tensor) (stack_dim : Z) (rtol : option Q) (gtol : Q) :
  from_tensor tensor stack_dim rtol gtol =
  match norm_index (Torch.ndim tensor) stack_dim with
  | Ok d =>
      if nth d (Torch.shape tensor) 0 =? 3
      then new (Torch.select tensor d 0) (Torch.select tensor d 1)
               (Torch.select tensor d 2) gtol rtol
      else Err (ValueError (unpack_message (nth d (Torch.shape tensor) 0)))
  | Err e => Err e
  end /\
  from_tensor_with_defaults tensor =
  match Torch.shape tensor with
  | [] => Err (IndexError "index out of range")
  | n :: _ =>
      if n =? 3
      then new (Torch.select tensor 0 0) (Torch.select tensor 0 1)
               (Torch.select tensor 0 2) (1 # 1000) (Some (1 # 100000000))
      else Err (ValueError (unpack_message n))
  end.
Proof.
  assert (H : forall dim r g,
             from_tensor tensor dim r g =
             match norm_index (Torch.ndim tensor) dim with
             | Ok d =>
                 if nth d (Torch.shape tensor) 0 =? 3
                 then new (Torch.select tensor d 0) (Torch.select tensor d 1)
                          (Torch.select tensor d 2) g r
                 else Err (ValueError (unpack_message (nth d (Torch.shape tensor) 0)))
             | Err e => Err e
             end).
  { intros dim r g. unfold from_tensor, Torch.unbind.
    destruct (norm_index (Torch.ndim tensor) dim) as [d|e]; [|reflexivity].
    cbn [bind].
    destruct (nth d (Torch.shape tensor) 0) as [|[|[|[|n]]]]; reflexivity. }
  split; [apply H|].
  unfold from_tensor_with_defaults. rewrite H.
  unfold Torch.ndim, from_tensor_default_stack_dim.
  destruct (Torch.shape tensor) as [|n s]; [reflexivity|].
  replace (norm_index (length (n :: s)) 0) with (Ok (A := nat) 0).
  - reflexivity.
  - unfold norm_index. cbn [length].
    replace ((0 <=? 0) && (0 <? Z.of_nat (S (length s))))%Z with true; [reflexivity|].
    symmetry. apply andb_true_iff. split; [reflexivity | apply Z.ltb_lt; lia].
Qed.

(** C8 (as stated) fails: on a stacked array whose stack axis has length two
    the error is the ValueError of the unpacking, not an InvalidShape
    error. *)
Lemma C8_wrong_length_raises_value_error :
  from_tensor two_stacked 0 from_tensor_default_repeat_detection_tolerance (1 # 1000)
  = Err (ValueError "not enough values to unpack (expected 3, got 2)") /\
  forall msg : string,
    from_tensor two_stacked 0 from_tensor_default_repeat_detection_tolerance (1 # 1000)
    <> Err (InvalidShape msg).
Proof.
  assert (H : from_tensor two_stacked 0 from_tensor_default_repeat_detection_tolerance
                          (1 # 1000)
              = Err (ValueError "not enough values to unpack (expected 3, got 2)"))
    by (vm_compute; reflexivity).
  split; [exact H|]. intros msg. rewrite H. discriminate.
Qed.

(** ** Broadcasting *)

Module NumpyFacts.
Import Numpy.

Lemma broadcast_rev_some (a b c : list nat) :
  broadcast_rev a b = Some c ->
  length c = Nat.max (length a) (length b) /\
  forall k, compatible (nth k a 1) (nth k b 1) /\ nth k c 1 = join (nth k a 1) (nth k b 1).
Proof.
  revert b c. induction a as [|x a IH]; intros b c.
  - cbn [broadcast_rev]. intros [= <-]. split; [reflexivity|].
    intros k. replace (nth k [] 1) with 1 by (now destruct k).
    split; [right; now left | reflexivity].
  - destruct b as [|y b].
    + cbn [broadcast_rev]. intros [= <-]. split; [cbn [length]; lia|].
      intros k. replace (nth k [] 1) with 1 by (now destruct k).
      split; [right; now right|].
      unfold join. destruct (nth k (x :: a) 1 =? 1) eqn:E; [|reflexivity].
      apply Nat.eqb_eq in E. now rewrite E.
    + cbn [broadcast_rev].
      assert (Hstep : forall v, compatible x y -> v = join x y ->
                forall c', broadcast_rev a b = Some c' ->
                length (v :: c') = Nat.max (length (x :: a)) (length (y :: b)) /\
                forall k, compatible (nth k (x :: a) 1) (nth k (y :: b) 1) /\
                          nth k (v :: c') 1 = join (nth k (x :: a) 1) (nth k (y :: b) 1)).
      { intros v Hc Hv c' Hc'. destruct (IH _ _ Hc') as [Hl Hk]. split.
        - cbn [length]. lia.
        - intros [|k]; cbn [nth]; [split; assumption | apply Hk]. }
      destruct (x =? y) eqn:Exy; [|destruct (x =? 1) eqn:Ex1; [|destruct (y =? 1) eqn:Ey1]].
      * apply Nat.eqb_eq in Exy. subst y.
        destruct (broadcast_rev a b) as [c'|] eqn:Ec; [|discriminate].
        cbn [option_map]. intros [= <-]. apply Hstep; auto.
        -- now left.
        -- unfold join. now destruct (x =? 1) eqn:E; [apply Nat.eqb_eq in E|].
      * apply Nat.eqb_eq in Ex1. subst x.
        destruct (broadcast_rev a b) as [c'|] eqn:Ec; [|discriminate].
        cbn [option_map]. intros [= <-]. apply Hstep; auto.
        right. now left.
      * apply Nat.eqb_eq in Ey1. subst y.
        destruct (broadcast_rev a b) as [c'|] eqn:Ec; [|discriminate].
        cbn [option_map]. intros [= <-]. apply Hstep; auto.
        -- right. now right.
        -- unfold join. now rewrite Ex1.
      * discriminate.
Qed.

Lemma broadcast_rev_compatible (a b : list nat) :
  (forall k, compatible (nth k a 1) (nth k b 1)) ->
  exists c, broadcast_rev a b = Some c.
Proof.
  revert b. induction a as [|x a IH]; intros b H.
  - eexists. reflexivity.
  - destruct b as [|y b]; [eexists; reflexivity|].
    destruct (IH b (fun k => H (S k))) as [c Hc].
    pose proof (H 0) as H0. cbn [nth] in H0.
    cbn [broadcast_rev]. rewrite Hc. cbn [option_map].
    destruct (x =? y) eqn:Exy; [eauto|].
    destruct (x =? 1) eqn:Ex1; [eauto|].
    destruct (y =? 1) eqn:Ey1; [eauto|].
    apply Nat.eqb_neq in Exy, Ex1, Ey1. unfold compatible in H0. lia.
Qed.

Lemma compatible_join (x y z : nat) :
  compatible x y ->
  (compatible (join x y) z <-> compatible x z /\ compatible y z).
Proof.
  unfold compatible, join. destruct (x =? 1) eqn:E.
  - apply Nat.eqb_eq in E. lia.
  - apply Nat.eqb_neq in E. lia.
Qed.

Lemma broadcast2_nil (s : list nat) : broadcast2 [] s = Some s.
Proof.
  unfold broadcast2. cbn [rev broadcast_rev option_map]. now rewrite rev_involutive.
Qed.

Lemma broadcast_shapes_three (a b c : list nat) :
  broadcast_shapes [a; b; c] =
  match broadcast_rev (rev a) (rev b) with
  | Some ab => match broadcast_rev ab (rev c) with
               | Some s => Ok (rev s)
               | None => Err (ValueError "shape mismatch: objects cannot be broadcast to a single shape")
               end
  | None => Err (ValueError "shape mismatch: objects cannot be broadcast to a single shape")
  end.
Proof.
  unfold broadcast_shapes. cbn [fold_left]. rewrite broadcast2_nil.
  unfold broadcast2.
  destruct (broadcast_rev (rev a) (rev b)) as [ab|]; cbn [option_map]; [|reflexivity].
  rewrite rev_involutive.
  destruct (broadcast_rev ab (rev c)); reflexivity.
Qed.

(** [np.broadcast_shapes] succeeds exactly on mutually compatible shapes, and
    the result has as many axes as the longest of them. *)
Lemma broadcast_shapes_ok (a b c : list nat) :
  match broadcast_shapes [a; b; c] with
  | Ok s => mutually_broadcastable a b c /\
            length s = Nat.max (length a) (Nat.max (length b) (length c))
  | Err _ => ~ mutually_broadcastable a b c
  end.
Proof.
  rewrite broadcast_shapes_three. unfold mutually_broadcastable, axis_from_end.
  destruct (broadcast_rev (rev a) (rev b)) as [ab|] eqn:Eab.
  - destruct (broadcast_rev_some _ _ _ Eab) as [Hlab Hab].
    destruct (broadcast_rev ab (rev c)) as [s|] eqn:Es.
    + destruct (broadcast_rev_some _ _ _ Es) as [Hls Hs]. split.
      * intros k. destruct (Hab k) as [Hc Hj]. destruct (Hs k) as [Hc' _].
        rewrite Hj in Hc'. apply compatible_join in Hc'; tauto.
      * rewrite length_rev, Hls, Hlab, !length_rev. lia.
    + intros H. destruct (broadcast_rev_compatible ab (rev c)) as [s Hs]; [|congruence].
      intros k. destruct (Hab k) as [Hc Hj]. rewrite Hj.
      apply compatible_join; [exact Hc|]. destruct (H k); tauto.
  - intros H. destruct (broadcast_rev_compatible (rev a) (rev b)) as [ab Hab]; [|congruence].
    intros k. destruct (H k); tauto.
Qed.

End NumpyFacts.

(** C7 (as amended): once repeat reduction has gone through, construction
    fails exactly when the arrays as stored are not mutually
    broadcast-compatible or their broadcast has fewer than four axes, and the
    error then is a ValueError with one of two fixed messages, which name
    neither an axis nor a shape. *)
Theorem C7_shape_errors (z y x : Torch.Tensor) (g : Q) (r : option Q) (stored : KTrajectory) :
  reduce_repeats (mkKTrajectory z y x g r) = Ok stored ->
  (is_ok (new z y x g r) = false <->
   ~ mutually_broadcastable (Torch.shape (kx stored)) (Torch.shape (ky stored))
                            (Torch.shape (kz stored))
   \/ broadcast_rank stored < 4) /\
  match new z y x g r with
  | Ok t => t = stored
  | Err e => e = ValueError msg_broadcastable \/ e = ValueError msg_dimensions
  end.
Proof.
  intros Hred. rewrite new_unfold, Hred. cbn [bind].
  unfold broadcasted_shape, broadcast_rank, Torch.ndim.
  pose proof (NumpyFacts.broadcast_shapes_ok (Torch.shape (kx stored))
                (Torch.shape (ky stored)) (Torch.shape (kz stored))) as H.
  destruct (Numpy.broadcast_shapes _) as [shape|e] eqn:E.
  - destruct H as [Hmb Hlen]. rewrite <- Hlen.
    destruct (length shape <? 4) eqn:E4.
    + apply Nat.ltb_lt in E4. split; [|now right].
      cbn [is_ok]. split; [now right | reflexivity].
    + apply Nat.ltb_ge in E4. split; [|reflexivity].
      cbn [is_ok]. split; [discriminate|]. intros [Hn|Hlt]; [contradiction|lia].
  - destruct (broadcasted_shape_error stored e E) as [msg ->].
    split; [|now left]. cbn [is_ok]. split; [now left | reflexivity].
Qed.

Lemma C7_shape_errors_witness :
  (is_ok (new (constant_line 5 0) (constant_line 3 0) (scalar4 0) (1 # 1000) None) = false <->
   ~ mutually_broadcastable [1; 1; 1; 1] [1; 1; 1; 3] [1; 1; 1; 5]
   \/ 4 < 4) /\
  match new (constant_line 5 0) (constant_line 3 0) (scalar4 0) (1 # 1000) None with
  | Ok t => t = mkKTrajectory (constant_line 5 0) (constant_line 3 0) (scalar4 0) (1 # 1000) None
  | Err e => e = ValueError msg_broadcastable \/ e = ValueError msg_dimensions
  end.
Proof.
  apply (C7_shape_errors (constant_line 5 0) (constant_line 3 0) (scalar4 0) (1 # 1000) None
           (mkKTrajectory (constant_line 5 0) (constant_line 3 0) (scalar4 0) (1 # 1000) None)).
  reflexivity.
Defined.

(** C7 (as stated) fails.  Arrays whose shapes (1,1,1,5) and (1,1,1,3) are
    not broadcast-compatible are accepted when their values repeat, since
    the shapes are compared after repeat reduction; and the error for
    incompatible shapes is the same for different offending shapes. *)
Lemma C7_incompatible_shapes_accepted :
  (~ mutually_broadcastable [1; 1; 1; 1] [1; 1; 1; 3] [1; 1; 1; 5] /\
   new (constant_line 5 0) (constant_line 3 0) (scalar4 0)
       default_grid_detection_tolerance default_repeat_detection_tolerance
   = Ok (mkKTrajectory (scalar4 0) (scalar4 0) (scalar4 0)
                       default_grid_detection_tolerance
                       default_repeat_detection_tolerance)) /\
  new (constant_line 5 0) (constant_line 3 0) (scalar4 0)
      default_grid_detection_tolerance None
  = Err (ValueError "The k-space trajectory dimensions must be broadcastable.") /\
  new (constant_line 7 0) (constant_line 2 0) (scalar4 0)
      default_grid_detection_tolerance None
  = Err (ValueError "The k-space trajectory dimensions must be broadcastable.").
Proof.
  split; [split|split]; try (vm_compute; reflexivity).
  intros H. destruct (H 0) as (_ & _ & Hc). vm_compute in Hc. lia.
Qed.

(** ** Conversions *)

Lemma new_tolerances (z y x : Torch.Tensor) (g : Q) (r : option Q) (t : KTrajectory) :
  new z y x g r = Ok t ->
  grid_detection_tolerance t = g /\ repeat_detection_tolerance t = r.
Proof.
  rewrite new_unfold.
  destruct (reduce_repeats _) as [self|e] eqn:E; [|discriminate].
  cbn [bind]. destruct (broadcasted_shape self) as [shape|[]]; try discriminate.
  destruct (length shape <? 4); [discriminate|].
  intros [= <-]. exact (reduce_repeats_tolerances _ _ E).
Qed.

(** Whatever the tolerances of a container, its converted copies carry the
    default tolerances. *)
Lemma conversions_take_default_tolerances (self t : KTrajectory) (dtype : option Torch.dtype) :
  to self dtype = Ok t \/ cuda self = Ok t \/ cpu self = Ok t ->
  grid_detection_tolerance t = default_grid_detection_tolerance /\
  repeat_detection_tolerance t = default_repeat_detection_tolerance.
Proof.
  unfold to, cuda, cpu. intros [H|[H|H]]; exact (new_tolerances _ _ _ _ _ _ H).
Qed.

(** C1: the code at a container built with a grid-detection tolerance of one
    half and with repeat detection disabled.  The copies made by [cpu],
    [cuda] and [to] carry the default tolerances instead of those of the
    original, and repeat reduction has run again: the two equal samples of
    kx are collapsed to one. *)
Theorem C1_conversions_reset_tolerances :
  new (scalar4 0) (scalar4 0) repeated_line (1 # 2) None = Ok unreduced_trajectory /\
  let copy := mkKTrajectory (scalar4 0) (scalar4 0) (scalar4 (5 # 4))
                            (1 # 1000) (Some (1 # 1000)) in
  cpu unreduced_trajectory = Ok copy /\
  cuda unreduced_trajectory = Ok copy /\
  to unreduced_trajectory None = Ok copy /\
  to unreduced_trajectory (Some Torch.float32) = Ok copy /\
  grid_detection_tolerance copy <> grid_detection_tolerance unreduced_trajectory /\
  repeat_detection_tolerance copy <> repeat_detection_tolerance unreduced_trajectory /\
  Torch.shape (kx copy) <> Torch.shape (Torch.cpu (kx unreduced_trajectory)).
Proof.
  split; [vm_compute; reflexivity|].
  cbv zeta. repeat split; try (vm_compute; reflexivity); cbn; discriminate.
Qed.

(** C2: the code at a container built with a grid-detection tolerance of one
    half, whose samples along k0 lie a quarter off the grid.  The original
    classifies kx and k0 as ON_GRID, its copy made by [cpu] classifies them
    as not on the grid. *)
Theorem C2_classification_changes_on_conversion :
  new (scalar4 0) (scalar4 0) quarter_line (1 # 2) default_repeat_detection_tolerance
  = Ok sample_trajectory /\
  type_along_kzyx sample_trajectory = Ok (3, 3, 2)%Z /\
  type_along_k210 sample_trajectory = Ok (3, 3, 2)%Z /\
  (copy <- cpu sample_trajectory ;; type_along_kzyx copy) = Ok (3, 3, 0)%Z /\
  (copy <- cpu sample_trajectory ;; type_along_k210 copy) = Ok (3, 3, 0)%Z.
Proof.
  repeat split; vm_compute; reflexivity.
Qed.

(** ** Export to a stacked array and back *)

Lemma expandable_rev_broadcast (a b c : list nat) :
  Numpy.broadcast_rev a b = Some c ->
  Torch.expandable_rev a c = true /\ Torch.expandable_rev b c = true.
Proof.
  assert (Hrefl : forall l, Torch.expandable_rev l l = true).
  { induction l as [|x l IH]; [reflexivity|].
    cbn [Torch.expandable_rev]. now rewrite Nat.eqb_refl, IH. }
  revert b c. induction a as [|x a IH]; intros b c.
  - cbn [Numpy.broadcast_rev]. intros [= <-]. split; [reflexivity | apply Hrefl].
  - destruct b as [|y b].
    + cbn [Numpy.broadcast_rev]. intros [= <-]. split; [apply Hrefl | reflexivity].
    + cbn [Numpy.broadcast_rev].
      destruct (Numpy.broadcast_rev a b) as [c'|] eqn:Ec;
        [destruct (IH _ _ Ec) as [Ha Hb] | ].
      * destruct (x =? y) eqn:Exy; [|destruct (x =? 1) eqn:Ex1; [|destruct (y =? 1) eqn:Ey1]];
          cbn [option_map]; try discriminate; intros [= <-];
          cbn [Torch.expandable_rev]; rewrite Ha, Hb, ?Nat.eqb_refl, ?Ex1, ?Ey1, ?orb_true_r;
          try (split; reflexivity).
        apply Nat.eqb_eq in Exy. subst y. rewrite Nat.eqb_refl. split; reflexivity.
      * destruct (x =? y); [|destruct (x =? 1); [|destruct (y =? 1)]]; discriminate.
Qed.

Lemma expandable_rev_trans (a b c : list nat) :
  Torch.expandable_rev a b = true -> Torch.expandable_rev b c = true ->
  Torch.expandable_rev a c = true.
Proof.
  revert b c. induction a as [|x a IH]; intros b c; [reflexivity|].
  destruct b as [|y b]; [discriminate|]. destruct c as [|z c]; [discriminate|].
  cbn [Torch.expandable_rev]. rewrite !andb_true_iff, !orb_true_iff, !Nat.eqb_eq.
  intros [Hxy Hab] [Hyz Hbc]. split; [lia | eauto].
Qed.

Lemma broadcast_shapes_expandable (a b c s : list nat) :
  Numpy.broadcast_shapes [a; b; c] = Ok s ->
  Torch.expandable a s = true /\ Torch.expandable b s = true /\ Torch.expandable c s = true.
Proof.
  rewrite NumpyFacts.broadcast_shapes_three.
  destruct (Numpy.broadcast_rev (rev a) (rev b)) as [ab|] eqn:Eab; [|discriminate].
  destruct (Numpy.broadcast_rev ab (rev c)) as [s'|] eqn:Es; [|discriminate].
  intros [= <-]. unfold Torch.expandable. rewrite rev_involutive.
  destruct (expandable_rev_broadcast _ _ _ Eab) as [Ha Hb].
  destruct (expandable_rev_broadcast _ _ _ Es) as [Hab Hc].
  repeat split; eauto using expandable_rev_trans.
Qed.

Lemma build_get_build (p d : Torch.dtype) (s : list nat) (f : list nat -> Q) :
  Torch.build p s (Torch.get (Torch.build d s f)) = retype p (Torch.build d s f).
Proof.
  unfold retype. cbn [Torch.build Torch.shape Torch.data].
  change (Torch.mkTensor p s (map f (Torch.indices s))) with (Torch.build p s f).
  apply TorchFacts.build_ext. intros idx H. now apply TorchFacts.get_build.
Qed.

Lemma norm_index_in_range (len : nat) (i : Z) :
  (- Z.of_nat len <= i < Z.of_nat len)%Z -> exists d, norm_index len i = Ok d.
Proof.
  intros H. unfold norm_index.
  destruct ((0 <=? i) && (i <? Z.of_nat len))%Z eqn:E1; [eauto|].
  destruct ((- Z.of_nat len <=? i) && (i <? 0))%Z eqn:E2; [eauto|].
  apply andb_false_iff in E1, E2. lia.
Qed.

Lemma list_eqb_refl (l : list nat) : Torch.list_eqb l l = true.
Proof.
  unfold Torch.list_eqb. destruct (list_eq_dec Nat.eq_dec l l); congruence.
Qed.

(** Exporting a container and splitting the export along the stack axis
    gives back the three expanded arrays, with the promoted dtype. *)
Lemma as_tensor_unbind (self : KTrajectory) (stack_dim : Z) (s : list nat) :
  broadcasted_shape self = Ok s ->
  (- Z.of_nat (length s) - 1 <= stack_dim <= Z.of_nat (length s))%Z ->
  exists (u ez ey ex : Torch.Tensor),
    Torch.expand (kz self) s = Ok ez /\
    Torch.expand (ky self) s = Ok ey /\
    Torch.expand (kx self) s = Ok ex /\
    Torch.shape ez = s /\ Torch.shape ey = s /\ Torch.shape ex = s /\
    as_tensor self stack_dim = Ok u /\
    Torch.unbind u stack_dim
    = Ok [retype (Torch.t_dtype u) ez; retype (Torch.t_dtype u) ey;
          retype (Torch.t_dtype u) ex].
Proof.
  intros Hs Hdim. unfold as_tensor. rewrite Hs. cbn [bind map_result].
  unfold broadcasted_shape in Hs.
  destruct (broadcast_shapes_expandable _ _ _ _ Hs) as (Hx & Hy & Hz).
  unfold Torch.expand. rewrite Hx, Hy, Hz. cbn [bind].
  set (ez := Torch.build _ s (fun idx => Torch.get (kz self) _)).
  set (ey := Torch.build _ s (fun idx => Torch.get (ky self) _)).
  set (ex := Torch.build _ s (fun idx => Torch.get (kx self) _)).
  destruct (norm_index_in_range (S (length s)) stack_dim) as [d Hd]; [lia|].
  assert (Hstack : Torch.stack [ez; ey; ex] stack_dim
                   = Ok (Torch.stacked [ez; ey; ex] ez d)).
  { unfold Torch.stack, Torch.ndim. cbn [forallb].
    change (Torch.shape ez) with s. change (Torch.shape ey) with s.
    change (Torch.shape ex) with s.
    rewrite list_eqb_refl. cbn [andb]. rewrite Hd. reflexivity. }
  exists (Torch.stacked [ez; ey; ex] ez d), ez, ey, ex.
  repeat split; try reflexivity; try exact Hstack.
  rewrite (TorchFacts.unbind_stack _ _ _ Hstack). cbn [map hd].
  change (Torch.shape ez) with s.
  subst ez ey ex. rewrite !build_get_build. reflexivity.
Qed.

Lemma Forall2_map_seq {A : Type} (R : A -> A -> Prop) (f : nat -> A) (l : list A) (dflt : A) :
  (forall i, i < length l -> R (f i) (nth i l dflt)) ->
  Forall2 R (map f (seq 0 (length l))) l.
Proof.
  revert f. induction l as [|a l IH]; intros f H; cbn [length seq map]; constructor.
  - apply (H 0). cbn [length]. lia.
  - rewrite <- seq_shift, map_map. apply IH.
    intros i Hi. apply (H (S i)). cbn [length]. lia.
Qed.

Lemma Forall2_rev' {A B : Type} (R : A -> B -> Prop) (l : list A) (l' : list B) :
  Forall2 R l l' -> Forall2 R (rev l) (rev l').
Proof.
  induction 1 as [|x y l l' Hxy _ IH]; cbn [rev]; [constructor|].
  apply Forall2_app; [exact IH | repeat constructor; exact Hxy].
Qed.

Lemma reduced_shape_collapsed (t : Torch.Tensor) (tol : Q) :
  collapsed_shape (reduced_shape t tol) (Torch.shape t).
Proof.
  unfold collapsed_shape, reduced_shape, Torch.ndim.
  apply Forall2_map_seq with (dflt := 0). intros i _.
  destruct (can_be_singleton t tol i); [now right | now left].
Qed.

Lemma collapsed_shape_refl (s : list nat) : collapsed_shape s s.
Proof.
  unfold collapsed_shape. induction s; constructor; auto.
Qed.

Lemma collapsed_axis (a s : list nat) (k : nat) :
  collapsed_shape a s ->
  axis_from_end a k = axis_from_end s k \/ axis_from_end a k = 1.
Proof.
  unfold collapsed_shape, axis_from_end. intros H.
  apply Forall2_rev' in H. revert k.
  induction H as [|x y a' s' Hxy _ IH]; intros [|k]; cbn [nth]; auto.
Qed.

Lemma collapsed_broadcast (a b c s : list nat) :
  collapsed_shape a s -> collapsed_shape b s -> collapsed_shape c s ->
  exists s', Numpy.broadcast_shapes [a; b; c] = Ok s' /\ length s' = length s.
Proof.
  intros Ha Hb Hc.
  pose proof (NumpyFacts.broadcast_shapes_ok a b c) as H.
  assert (Hmb : mutually_broadcastable a b c).
  { intros k. pose proof (collapsed_axis _ _ k Ha). pose proof (collapsed_axis _ _ k Hb).
    pose proof (collapsed_axis _ _ k Hc). unfold compatible. lia. }
  destruct (Numpy.broadcast_shapes [a; b; c]) as [s'|e]; [|contradiction].
  exists s'. split; [reflexivity|]. destruct H as [_ ->].
  apply Forall2_length in Ha, Hb, Hc. lia.
Qed.

Lemma remove_repeat_ok (t : Torch.Tensor) (tol : Q) :
  ~ In 0 (Torch.shape t) ->
  remove_repeat t tol
  = Ok (Torch.build (Torch.t_dtype t) (reduced_shape t tol) (Torch.get t)).
Proof.
  intros H. unfold remove_repeat.
  destruct (existsb (Nat.eqb 0) (Torch.shape t)) eqn:E; [|reflexivity].
  apply existsb_exists in E as (n & Hin & Hn). apply Nat.eqb_eq in Hn. now subst n.
Qed.

(** The constructor on three arrays of one shape with at least four axes. *)
Lemma new_same_shape (a b c : Torch.Tensor) (g : Q) (rtol : option Q) (s : list nat) :
  Torch.shape a = s -> Torch.shape b = s -> Torch.shape c = s ->
  4 <= length s -> rtol = None \/ ~ In 0 s ->
  exists (ra rb rc : Torch.Tensor) (t : KTrajectory),
    repeat_reduced rtol a = Ok ra /\ repeat_reduced rtol b = Ok rb /\
    repeat_reduced rtol c = Ok rc /\
    new a b c g rtol = Ok t /\
    same_elements (kz t) ra /\ same_elements (ky t) rb /\ same_elements (kx t) rc.
Proof.
  intros Ha Hb Hc Hlen Hzero. rewrite new_unfold.
  destruct rtol as [tol|].
  - destruct Hzero as [|Hzero]; [discriminate|].
    cbn [repeat_reduced reduce_repeats repeat_detection_tolerance kz ky kx
         grid_detection_tolerance].
    rewrite !remove_repeat_ok by congruence. cbn [bind].
    pose proof (reduced_shape_collapsed a tol) as Ca. rewrite Ha in Ca.
    pose proof (reduced_shape_collapsed b tol) as Cb. rewrite Hb in Cb.
    pose proof (reduced_shape_collapsed c tol) as Cc. rewrite Hc in Cc.
    destruct (collapsed_broadcast _ _ _ s Cc Cb Ca) as (s' & Hs' & Hl).
    set (ra := Torch.build (Torch.t_dtype a) (reduced_shape a tol) (Torch.get a)).
    set (rb := Torch.build (Torch.t_dtype b) (reduced_shape b tol) (Torch.get b)).
    set (rc := Torch.build (Torch.t_dtype c) (reduced_shape c tol) (Torch.get c)).
    exists ra, rb, rc,
      (mkKTrajectory (as_any_float ra) (as_any_float rb) (as_any_float rc) g (Some tol)).
    split; [reflexivity|]. split; [reflexivity|]. split; [reflexivity|].
    split; [|cbn [kz ky kx]; repeat split; apply as_any_float_elements].
    unfold broadcasted_shape. cbn [kz ky kx].
    rewrite !(proj1 (as_any_float_elements _)).
    change (Torch.shape rc) with (reduced_shape c tol).
    change (Torch.shape rb) with (reduced_shape b tol).
    change (Torch.shape ra) with (reduced_shape a tol).
    rewrite Hs'.
    replace (length s' <? 4) with false by (symmetry; apply Nat.ltb_ge; lia).
    reflexivity.
  - cbn [repeat_reduced reduce_repeats repeat_detection_tolerance bind].
    destruct (collapsed_broadcast s s s s) as (s' & Hs' & Hl); try apply collapsed_shape_refl.
    exists a, b, c, (mkKTrajectory a b c g None).
    split; [reflexivity|]. split; [reflexivity|]. split; [reflexivity|].
    split; [|repeat split; reflexivity].
    unfold broadcasted_shape. cbn [kz ky kx]. rewrite Ha, Hb, Hc, Hs'.
    replace (length s' <? 4) with false by (symmetry; apply Nat.ltb_ge; lia).
    reflexivity.
Qed.

Lemma repeat_reduced_retype (p : Torch.dtype) (rtol : option Q) (t : Torch.Tensor) :
  repeat_reduced rtol (retype p t) = map_ok (retype p) (repeat_reduced rtol t).
Proof.
  destruct rtol as [tol|]; [|reflexivity].
  unfold repeat_reduced, remove_repeat. cbn [retype Torch.shape].
  destruct (existsb (Nat.eqb 0) (Torch.shape t)); reflexivity.
Qed.

(** A constructed container has a broadcast shape of at least four axes. *)
Lemma constructed_broadcasts (z y x : Torch.Tensor) (g : Q) (r : option Q) (self : KTrajectory) :
  new z y x g r = Ok self ->
  exists s, broadcasted_shape self = Ok s /\ 4 <= length s.
Proof.
  rewrite new_unfold.
  destruct (reduce_repeats _) as [stored|e]; [|discriminate]. cbn [bind].
  destruct (broadcasted_shape stored) as [s|[]] eqn:Es; try discriminate.
  destruct (length s <? 4) eqn:E4; [discriminate|].
  intros [= <-]. exists s. split; [exact Es|]. now apply Nat.ltb_ge in E4.
Qed.

(** C9: exporting a constructed container with [as_tensor] and rebuilding it
    with [from_tensor] along the same axis succeeds, and the three arrays of
    the result have the shape and the elements of the originals expanded to
    the broadcast shape and then repeat-reduced.  The arrays are taken
    without an axis of length zero when the rebuilding reduces repeats. *)
Theorem C9_round_trip (z y x : Torch.Tensor) (g : Q) (r : option Q)
        (self : KTrajectory) (s : list nat)
        (stack_dim : Z) (rtol : option Q) (gtol : Q) :
  new z y x g r = Ok self ->
  broadcasted_shape self = Ok s ->
  (- Z.of_nat (length s) - 1 <= stack_dim <= Z.of_nat (length s))%Z ->
  rtol = None \/ ~ In 0 s ->
  exists (u ez ey ex rz ry rx : Torch.Tensor) (t : KTrajectory),
    Torch.expand (kz self) s = Ok ez /\
    Torch.expand (ky self) s = Ok ey /\
    Torch.expand (kx self) s = Ok ex /\
    repeat_reduced rtol ez = Ok rz /\
    repeat_reduced rtol ey = Ok ry /\
    repeat_reduced rtol ex = Ok rx /\
    as_tensor self stack_dim = Ok u /\
    from_tensor u stack_dim rtol gtol = Ok t /\
    same_elements (kz t) rz /\ same_elements (ky t) ry /\ same_elements (kx t) rx.
Proof.
  intros Hnew Hs Hdim Hzero.
  destruct (constructed_broadcasts _ _ _ _ _ _ Hnew) as (s0 & Hs0 & Hlen).
  assert (s0 = s) by congruence. subst s0. clear Hs0.
  destruct (as_tensor_unbind self stack_dim s Hs Hdim)
    as (u & ez & ey & ex & Hez & Hey & Hex & Sz & Sy & Sx & Hu & Hparts).
  destruct (new_same_shape (retype (Torch.t_dtype u) ez) (retype (Torch.t_dtype u) ey)
              (retype (Torch.t_dtype u) ex) gtol rtol s Sz Sy Sx Hlen Hzero)
    as (ra & rb & rc & t & Ra & Rb & Rc & Ht & Ez & Ey & Ex).
  rewrite repeat_reduced_retype in Ra, Rb, Rc.
  destruct (repeat_reduced rtol ez) as [rz|] eqn:Rz; [|discriminate].
  destruct (repeat_reduced rtol ey) as [ry|] eqn:Ry; [|discriminate].
  destruct (repeat_reduced rtol ex) as [rx|] eqn:Rx; [|discriminate].
  cbn [map_ok] in Ra, Rb, Rc.
  injection Ra as <-. injection Rb as <-. injection Rc as <-.
  exists u, ez, ey, ex, rz, ry, rx, t.
  repeat (split; [assumption || reflexivity|]).
  split; [|auto].
  unfold from_tensor. rewrite Hparts. cbn [bind unpack3]. exact Ht.
Qed.

Lemma C9_round_trip_witness :
  exists (u ez ey ex rz ry rx : Torch.Tensor) (t : KTrajectory),
    Torch.expand (kz sample_trajectory) [1; 1; 1; 2] = Ok ez /\
    Torch.expand (ky sample_trajectory) [1; 1; 1; 2] = Ok ey /\
    Torch.expand (kx sample_trajectory) [1; 1; 1; 2] = Ok ex /\
    repeat_reduced from_tensor_default_repeat_detection_tolerance ez = Ok rz /\
    repeat_reduced from_tensor_default_repeat_detection_tolerance ey = Ok ry /\
    repeat_reduced from_tensor_default_repeat_detection_tolerance ex = Ok rx /\
    as_tensor sample_trajectory 0 = Ok u /\
    from_tensor u 0 from_tensor_default_repeat_detection_tolerance (1 # 2) = Ok t /\
    same_elements (kz t) rz /\ same_elements (ky t) ry /\ same_elements (kx t) rx.
Proof.
  apply (C9_round_trip (scalar4 0) (scalar4 0) quarter_line (1 # 2)
           default_repeat_detection_tolerance sample_trajectory [1; 1; 1; 2]
           0%Z from_tensor_default_repeat_detection_tolerance (1 # 2)).
  - vm_compute. reflexivity.
  - vm_compute. reflexivity.
  - simpl. lia.
  - right. simpl. lia.
Defined.

(** ** Arrays with fewer than three axes *)

(** The constructor only asks the broadcast of the three shapes for four
    axes: a container with an array of a single axis is constructed, and its
    classification raises an IndexError on the missing axes. *)
Example classification_needs_three_axes :
  let line := Torch.mkTensor Torch.float32 [2] [0%Q; 1%Q] in
  new (scalar4 0) line quarter_line (1 # 1000) None
  = Ok (mkKTrajectory (scalar4 0) line quarter_line (1 # 1000) None) /\
  type_along_kzyx (mkKTrajectory (scalar4 0) line quarter_line (1 # 1000) None)
  = Err (IndexError "index out of range").
Proof. split; vm_compute; reflexivity. Qed.

(** * Further properties of the container *)

(** ** More on row-major indexing *)

Module TorchMore.
Import Torch.

Lemma insert_remove {A : Type} (d : nat) (dflt : A) (l : list A) :
  d < length l -> insert_at d (nth d l dflt) (remove_at d l) = l.
Proof.
  intros H. unfold insert_at, remove_at.
  rewrite firstn_app, length_firstn, Nat.min_l by lia.
  rewrite Nat.sub_diag, firstn_O, app_nil_r, firstn_firstn, Nat.min_id.
  rewrite skipn_app, length_firstn, Nat.min_l by lia.
  rewrite Nat.sub_diag, skipn_O.
  rewrite (skipn_all2 (firstn d l)) by (rewrite length_firstn; lia).
  cbn [app].
  rewrite <- (firstn_skipn d l) at 4. f_equal.
  rewrite <- (firstn_skipn d l) at 1.
  rewrite app_nth2; rewrite length_firstn, Nat.min_l by lia; [|lia].
  rewrite Nat.sub_diag.
  replace (S d) with (1 + d) by lia. rewrite <- skipn_skipn.
  destruct (skipn d l) as [|a rest] eqn:E.
  - apply (f_equal (@length A)) in E. rewrite length_skipn in E. cbn in E. lia.
  - reflexivity.
Qed.

Lemma Forall2_remove {A B : Type} (R : A -> B -> Prop) (d : nat)
      (l : list A) (l' : list B) :
  Forall2 R l l' -> Forall2 R (remove_at d l) (remove_at d l').
Proof.
  intros H. unfold remove_at. apply Forall2_app.
  - now apply TorchFacts.Forall2_firstn.
  - now apply TorchFacts.Forall2_skipn.
Qed.

Lemma length_remove {A : Type} (d : nat) (l : list A) :
  d < length l -> length (remove_at d l) = length l - 1.
Proof.
  intros H. unfold remove_at.
  rewrite length_app, length_firstn, length_skipn. lia.
Qed.

Lemma insert_remove_shape (d n : nat) (s : list nat) :
  d < length s -> nth d s 0 = n -> insert_at d n (remove_at d s) = s.
Proof.
  intros H <-. now apply insert_remove.
Qed.

Lemma map_nth_data (l : list Q) :
  map (fun k => nth k l 0%Q) (seq 0 (length l)) = l.
Proof.
  rewrite (TorchFacts.map_nth_seq (fun q => q) l 0%Q). apply map_id.
Qed.

Lemma build_get (t : Tensor) :
  well_formed t -> build (t_dtype t) (shape t) (get t) = t.
Proof.
  unfold well_formed. intros H. destruct t as [d s l]. cbn [t_dtype shape data] in *.
  unfold build, get. cbn [shape data]. f_equal.
  rewrite <- (map_map (offset s) (fun k => nth k l 0%Q)).
  rewrite TorchFacts.offset_indices, <- H. apply map_nth_data.
Qed.

Lemma well_formed_build (d : dtype) (s : list nat) (f : list nat -> Q) :
  well_formed (build d s f).
Proof.
  unfold well_formed, build. cbn [shape data].
  now rewrite length_map, TorchFacts.length_indices.
Qed.

Lemma broadcast_index_same (s idx : list nat) :
  Forall2 lt idx s -> broadcast_index s idx = idx.
Proof.
  intros H. unfold broadcast_index.
  rewrite (Forall2_length H), Nat.sub_diag, skipn_O.
  induction H as [|i n idx s Hlt _ IH]; [reflexivity|].
  cbn [combine map fst snd]. rewrite IH. f_equal.
  destruct (n =? 1) eqn:E; [|reflexivity]. apply Nat.eqb_eq in E. lia.
Qed.

Lemma get_select (t : Tensor) (d i : nat) (idx : list nat) :
  Forall2 lt idx (remove_at d (shape t)) ->
  get (select t d i) idx = get t (insert_at d i idx).
Proof.
  intros H. unfold select. now rewrite TorchFacts.get_build.
Qed.

Lemma get_stacked (ts : list Tensor) (t0 : Tensor) (d i : nat) (idx : list nat) :
  d <= ndim t0 -> i < length ts -> Forall2 lt idx (shape t0) ->
  get (stacked ts t0 d) (insert_at d i idx) = get (nth i ts t0) idx.
Proof.
  intros Hd Hi Hidx. unfold ndim in Hd.
  pose proof (Forall2_length Hidx) as Hlen.
  unfold stacked. rewrite TorchFacts.get_build.
  - rewrite TorchFacts.nth_insert by lia. rewrite TorchFacts.remove_insert by lia.
    reflexivity.
  - apply TorchFacts.Forall2_insert; [lia | exact Hidx].
Qed.

Lemma promote_types_idem (d : dtype) : promote_types d d = d.
Proof. destruct d; reflexivity. Qed.

End TorchMore.

(** ** Export to a stacked array *)

Lemma norm_index_ok_iff (len : nat) (i : Z) :
  is_ok (norm_index len i) = true <-> (- Z.of_nat len <= i < Z.of_nat len)%Z.
Proof.
  unfold norm_index.
  destruct ((0 <=? i) && (i <? Z.of_nat len))%Z eqn:E1.
  - apply andb_prop in E1 as [H1 H2]. cbn [is_ok]. split; [lia | reflexivity].
  - destruct ((- Z.of_nat len <=? i) && (i <? 0))%Z eqn:E2.
    + apply andb_prop in E2 as [H1 H2]. cbn [is_ok]. split; [lia | reflexivity].
    + cbn [is_ok]. apply andb_false_iff in E1, E2. split; [discriminate | lia].
Qed.

Lemma norm_index_error (len : nat) (i : Z) (e : exn) :
  norm_index len i = Err e -> e = IndexError "index out of range".
Proof.
  unfold norm_index.
  destruct ((0 <=? i) && (i <? Z.of_nat len))%Z; [discriminate|].
  destruct ((- Z.of_nat len <=? i) && (i <? 0))%Z; [discriminate|].
  now intros [= <-].
Qed.

(** The array read at the positions of its expansion to [s]. *)
Lemma expand_ok (t : Torch.Tensor) (s : list nat) :
  Torch.expandable (Torch.shape t) s = true ->
  Torch.expand t s
  = Ok (Torch.build (Torch.t_dtype t) s
          (fun idx => Torch.get t (Torch.broadcast_index (Torch.shape t) idx))).
Proof.
  intros H. unfold Torch.expand. now rewrite H.
Qed.

Lemma as_tensor_stacked (self : KTrajectory) (stack_dim : Z) (s : list nat) (d : nat) :
  broadcasted_shape self = Ok s ->
  norm_index (S (length s)) stack_dim = Ok d ->
  exists ez ey ex : Torch.Tensor,
    Torch.expand (kz self) s = Ok ez /\
    Torch.expand (ky self) s = Ok ey /\
    Torch.expand (kx self) s = Ok ex /\
    Torch.shape ez = s /\ Torch.shape ey = s /\ Torch.shape ex = s /\
    as_tensor self stack_dim = Ok (Torch.stacked [ez; ey; ex] ez d).
Proof.
  intros Hs Hd. unfold as_tensor. rewrite Hs. cbn [bind map_result].
  unfold broadcasted_shape in Hs.
  destruct (broadcast_shapes_expandable _ _ _ _ Hs) as (Hx & Hy & Hz).
  rewrite (expand_ok _ _ Hx), (expand_ok _ _ Hy), (expand_ok _ _ Hz). cbn [bind].
  do 3 eexists. repeat (split; [reflexivity|]).
  unfold Torch.stack, Torch.ndim. cbn [forallb].
  change (Torch.shape (Torch.build ?a s ?f)) with s.
  rewrite list_eqb_refl. cbn [andb]. rewrite Hd. reflexivity.
Qed.

(** X1: the export has the broadcast shape with an axis of length three
    inserted at the stack axis, and along that axis it holds kz, ky and kx in
    this order, each read with an index of zero along the axes on which it
    has length one. *)
Theorem as_tensor_shape_and_elements
        (self : KTrajectory) (stack_dim : Z) (s : list nat) (d : nat) :
  broadcasted_shape self = Ok s ->
  norm_index (S (length s)) stack_dim = Ok d ->
  exists u : Torch.Tensor,
    as_tensor self stack_dim = Ok u /\
    Torch.shape u = Torch.insert_at d 3 s /\
    well_formed u /\
    forall idx : list nat, Forall2 lt idx s ->
      Torch.get u (Torch.insert_at d 0 idx)
      = Torch.get (kz self) (Torch.broadcast_index (Torch.shape (kz self)) idx) /\
      Torch.get u (Torch.insert_at d 1 idx)
      = Torch.get (ky self) (Torch.broadcast_index (Torch.shape (ky self)) idx) /\
      Torch.get u (Torch.insert_at d 2 idx)
      = Torch.get (kx self) (Torch.broadcast_index (Torch.shape (kx self)) idx).
Proof.
  intros Hs Hd.
  destruct (as_tensor_stacked self stack_dim s d Hs Hd)
    as (ez & ey & ex & Hez & Hey & Hex & Sz & Sy & Sx & Hu).
  pose proof (TorchFacts.norm_index_le _ _ _ Hd) as Hle.
  exists (Torch.stacked [ez; ey; ex] ez d).
  split; [exact Hu|]. split; [unfold Torch.stacked; cbn; now rewrite Sz|].
  split; [apply TorchMore.well_formed_build|].
  intros idx Hidx.
  unfold broadcasted_shape in Hs.
  destruct (broadcast_shapes_expandable _ _ _ _ Hs) as (Hx & Hy & Hz).
  rewrite (expand_ok _ _ Hz) in Hez. rewrite (expand_ok _ _ Hy) in Hey.
  rewrite (expand_ok _ _ Hx) in Hex.
  injection Hez as <-. injection Hey as <-. injection Hex as <-.
  rewrite !TorchMore.get_stacked
    by (try exact Hidx; cbn [length]; unfold Torch.ndim; cbn [Torch.build Torch.shape]; lia).
  cbn [nth]. rewrite !TorchFacts.get_build by exact Hidx. repeat split.
Qed.

Lemma as_tensor_shape_and_elements_witness :
  exists u : Torch.Tensor,
    as_tensor sample_trajectory 0 = Ok u /\
    Torch.shape u = Torch.insert_at 0 3 [1; 1; 1; 2] /\
    well_formed u /\
    forall idx : list nat, Forall2 lt idx [1; 1; 1; 2] ->
      Torch.get u (Torch.insert_at 0 0 idx)
      = Torch.get (kz sample_trajectory)
                  (Torch.broadcast_index (Torch.shape (kz sample_trajectory)) idx) /\
      Torch.get u (Torch.insert_at 0 1 idx)
      = Torch.get (ky sample_trajectory)
                  (Torch.broadcast_index (Torch.shape (ky sample_trajectory)) idx) /\
      Torch.get u (Torch.insert_at 0 2 idx)
      = Torch.get (kx sample_trajectory)
                  (Torch.broadcast_index (Torch.shape (kx sample_trajectory)) idx).
Proof.
  apply (as_tensor_shape_and_elements sample_trajectory 0 [1; 1; 1; 2] 0).
  - vm_compute. reflexivity.
  - vm_compute. reflexivity.
Defined.

(** X2: the export succeeds exactly when the three shapes are mutually
    broadcast-compatible and the stack axis lies between minus the rank of
    the result and the broadcast rank; its only errors are the ValueError of
    [np.broadcast_shapes] and an IndexError for the stack axis. *)
Theorem as_tensor_succeeds_iff (self : KTrajectory) (stack_dim : Z) :
  (is_ok (as_tensor self stack_dim) = true <->
   mutually_broadcastable (Torch.shape (kx self)) (Torch.shape (ky self))
                          (Torch.shape (kz self))
   /\ (- Z.of_nat (broadcast_rank self) - 1 <= stack_dim <= Z.of_nat (broadcast_rank self))%Z)
  /\
  match as_tensor self stack_dim with
  | Ok _ => True
  | Err e =>
      e = ValueError "shape mismatch: objects cannot be broadcast to a single shape"
      \/ e = IndexError "index out of range"
  end.
Proof.
  pose proof (NumpyFacts.broadcast_shapes_ok (Torch.shape (kx self))
                (Torch.shape (ky self)) (Torch.shape (kz self))) as H.
  destruct (broadcasted_shape self) as [s|e] eqn:Es.
  - unfold broadcasted_shape in Es. rewrite Es in H. destruct H as [Hmb Hlen].
    assert (Hrank : broadcast_rank self = length s)
      by (unfold broadcast_rank, Torch.ndim; lia).
    rewrite Hrank.
    destruct (norm_index (S (length s)) stack_dim) as [d|e] eqn:Ed.
    + destruct (as_tensor_stacked self stack_dim s d Es Ed)
        as (ez & ey & ex & _ & _ & _ & _ & _ & _ & Hu).
      rewrite Hu. cbn [is_ok]. split; [|exact I].
      split; [|reflexivity]. intros _. split; [exact Hmb|].
      assert (Hok : is_ok (norm_index (S (length s)) stack_dim) = true) by now rewrite Ed.
      apply norm_index_ok_iff in Hok. lia.
    + assert (Hu : as_tensor self stack_dim = Err e).
      { unfold as_tensor. fold (broadcasted_shape self) in Es.
        unfold broadcasted_shape in *. rewrite Es. cbn [bind map_result].
        destruct (broadcast_shapes_expandable _ _ _ _ Es) as (Hx & Hy & Hz).
        rewrite (expand_ok _ _ Hx), (expand_ok _ _ Hy), (expand_ok _ _ Hz). cbn [bind].
        unfold Torch.stack, Torch.ndim. cbn [forallb].
        change (Torch.shape (Torch.build ?a s ?f)) with s.
        rewrite list_eqb_refl. cbn [andb]. rewrite Ed. reflexivity. }
      rewrite Hu. cbn [is_ok]. split; [|right; exact (norm_index_error _ _ _ Ed)].
      split; [discriminate|]. intros [_ Hr].
      assert (Hok : is_ok (norm_index (S (length s)) stack_dim) = true)
        by (apply norm_index_ok_iff; lia).
      rewrite Ed in Hok. discriminate.
  - assert (Hu : as_tensor self stack_dim = Err e)
      by (unfold as_tensor; now rewrite Es).
    rewrite Hu. unfold broadcasted_shape in Es. rewrite Es in H.
    cbn [is_ok]. split.
    + split; [discriminate|]. intros [Hmb _]. contradiction.
    + left. unfold Numpy.broadcast_shapes in Es.
      destruct (fold_left _ _ _); [discriminate|]. now injection Es as <-.
Qed.

(** ** Construction from a stacked array, continued *)

Lemma broadcast_rev_same (a : list nat) : Numpy.broadcast_rev a a = Some a.
Proof.
  induction a as [|x a IH]; [reflexivity|].
  cbn [Numpy.broadcast_rev]. now rewrite Nat.eqb_refl, IH.
Qed.

Lemma broadcast_shapes_same (s : list nat) : Numpy.broadcast_shapes [s; s; s] = Ok s.
Proof.
  rewrite NumpyFacts.broadcast_shapes_three, !broadcast_rev_same.
  now rewrite rev_involutive.
Qed.

Lemma Forall2_nth_lt (idx s : list nat) (d : nat) :
  Forall2 lt idx s -> d < length s -> nth d idx 0 < nth d s 0.
Proof.
  intros H. revert d. induction H as [|i n idx s Hlt _ IH]; intros [|d] Hd;
    cbn [length nth] in *; try lia.
  apply IH. lia.
Qed.

Lemma from_tensor_unfold (tensor : Torch.Tensor) (stack_dim : Z) (d : nat)
      (rtol : option Q) (gtol : Q) :
  norm_index (Torch.ndim tensor) stack_dim = Ok d ->
  nth d (Torch.shape tensor) 0 = 3 ->
  from_tensor tensor stack_dim rtol gtol
  = new (Torch.select tensor d 0) (Torch.select tensor d 1) (Torch.select tensor d 2)
        gtol rtol.
Proof.
  intros Hd H3. unfold from_tensor, Torch.unbind. rewrite Hd. cbn [bind].
  rewrite H3. reflexivity.
Qed.

Lemma from_tensor_ok_axis (tensor : Torch.Tensor) (stack_dim : Z)
      (rtol : option Q) (gtol : Q) (t : KTrajectory) :
  from_tensor tensor stack_dim rtol gtol = Ok t ->
  exists d, norm_index (Torch.ndim tensor) stack_dim = Ok d /\
            nth d (Torch.shape tensor) 0 = 3.
Proof.
  unfold from_tensor, Torch.unbind.
  destruct (norm_index (Torch.ndim tensor) stack_dim) as [d|e]; [|discriminate].
  cbn [bind]. intros H. exists d. split; [reflexivity|].
  destruct (nth d (Torch.shape tensor) 0) as [|[|[|[|n]]]]; try discriminate.
  reflexivity.
Qed.

Lemma length_reduced_shape (t : Torch.Tensor) (tol : Q) :
  length (reduced_shape t tol) = Torch.ndim t.
Proof.
  unfold reduced_shape. now rewrite length_map, length_seq.
Qed.

Lemma remove_repeat_ndim (t t' : Torch.Tensor) (tol : Q) :
  remove_repeat t tol = Ok t' -> Torch.ndim (as_any_float t') = Torch.ndim t.
Proof.
  unfold remove_repeat. destruct (existsb _ _); [discriminate|].
  intros [= <-]. unfold Torch.ndim.
  rewrite (proj1 (as_any_float_elements _)).
  apply length_reduced_shape.
Qed.

(** Repeat reduction keeps the number of axes of the three arrays. *)
Lemma reduce_repeats_ndim (self stored : KTrajectory) :
  reduce_repeats self = Ok stored ->
  Torch.ndim (kz stored) = Torch.ndim (kz self) /\
  Torch.ndim (ky stored) = Torch.ndim (ky self) /\
  Torch.ndim (kx stored) = Torch.ndim (kx self).
Proof.
  unfold reduce_repeats. destruct (repeat_detection_tolerance self) as [tol|].
  - destruct (remove_repeat (kz self) tol) as [z|] eqn:Ez; cbn [bind]; [|discriminate].
    destruct (remove_repeat (ky self) tol) as [y|] eqn:Ey; cbn [bind]; [|discriminate].
    destruct (remove_repeat (kx self) tol) as [x|] eqn:Ex; cbn [bind]; [|discriminate].
    intros [= <-]. cbn [kz ky kx]. repeat split; eapply remove_repeat_ndim; eassumption.
  - intros [= <-]. auto.
Qed.

Lemma new_ok_stored (z y x : Torch.Tensor) (g : Q) (r : option Q) (t : KTrajectory) :
  new z y x g r = Ok t ->
  reduce_repeats (mkKTrajectory z y x g r) = Ok t.
Proof.
  rewrite new_unfold.
  destruct (reduce_repeats _) as [stored|e]; [|discriminate]. cbn [bind].
  destruct (broadcasted_shape stored) as [s|[]]; try discriminate.
  destruct (length s <? 4); [discriminate|]. congruence.
Qed.

(** X3: [from_tensor] returns a container only for a stacked array of at
    least five axes whose stack axis exists and has length three, and each of
    the three arrays of the container has one axis less than the stacked
    array. *)
Theorem from_tensor_needs_five_axes (tensor : Torch.Tensor) (stack_dim : Z)
        (rtol : option Q) (gtol : Q) (t : KTrajectory) :
  from_tensor tensor stack_dim rtol gtol = Ok t ->
  5 <= Torch.ndim tensor /\
  (exists d, norm_index (Torch.ndim tensor) stack_dim = Ok d /\
             nth d (Torch.shape tensor) 0 = 3) /\
  S (Torch.ndim (kz t)) = Torch.ndim tensor /\
  S (Torch.ndim (ky t)) = Torch.ndim tensor /\
  S (Torch.ndim (kx t)) = Torch.ndim tensor.
Proof.
  intros H. destruct (from_tensor_ok_axis _ _ _ _ _ H) as (d & Hd & H3).
  rewrite (from_tensor_unfold _ _ d _ _ Hd H3) in H.
  pose proof (TorchFacts.norm_index_le _ _ _ Hd) as Hlt. unfold Torch.ndim in Hlt.
  destruct (constructed_broadcasts _ _ _ _ _ _ H) as (s & Hs & Hlen).
  destruct (reduce_repeats_ndim _ _ (new_ok_stored _ _ _ _ _ _ H)) as (Nz & Ny & Nx).
  cbn [kz ky kx] in Nz, Ny, Nx.
  unfold Torch.select, Torch.ndim in Nz, Ny, Nx.
  cbn [Torch.build Torch.shape] in Nz, Ny, Nx.
  rewrite TorchMore.length_remove in Nz, Ny, Nx by exact Hlt.
  pose proof (NumpyFacts.broadcast_shapes_ok (Torch.shape (kx t))
                (Torch.shape (ky t)) (Torch.shape (kz t))) as Hb.
  unfold broadcasted_shape in Hs. rewrite Hs in Hb. destruct Hb as [_ Hb].
  unfold Torch.ndim. rewrite Nz, Ny, Nx in *.
  repeat split; try lia. exists d. split; [exact Hd | exact H3].
Qed.

Lemma from_tensor_needs_five_axes_witness :
  5 <= Torch.ndim sample_stacked /\
  (exists d, norm_index (Torch.ndim sample_stacked) 0 = Ok d /\
             nth d (Torch.shape sample_stacked) 0 = 3) /\
  S (Torch.ndim (kz sample_unstacked)) = Torch.ndim sample_stacked /\
  S (Torch.ndim (ky sample_unstacked)) = Torch.ndim sample_stacked /\
  S (Torch.ndim (kx sample_unstacked)) = Torch.ndim sample_stacked.
Proof.
  apply (from_tensor_needs_five_axes sample_stacked 0
           from_tensor_default_repeat_detection_tolerance (1 # 1000)).
  vm_compute. reflexivity.
Defined.

(** An array expanded to its own shape is read at the same positions. *)
Lemma expand_same_shape (t : Torch.Tensor) (s : list nat) (f : list nat -> Q) :
  let b := Torch.build (Torch.t_dtype t) s f in
  Torch.build (Torch.t_dtype b) s
    (fun idx => Torch.get b (Torch.broadcast_index (Torch.shape b) idx)) = b.
Proof.
  cbv zeta. cbn [Torch.build Torch.t_dtype Torch.shape].
  change (Torch.mkTensor (Torch.t_dtype t) s (map f (Torch.indices s)))
    with (Torch.build (Torch.t_dtype t) s f).
  apply TorchFacts.build_ext. intros idx H.
  rewrite TorchMore.broadcast_index_same by exact H.
  now apply TorchFacts.get_build.
Qed.

(** X4: splitting a stacked array of at least five axes with [from_tensor],
    repeat detection disabled, and exporting the container with [as_tensor]
    along the same axis gives back the stacked array. *)
Theorem as_tensor_from_tensor (tensor : Torch.Tensor) (stack_dim : Z) (d : nat) (gtol : Q) :
  well_formed tensor ->
  norm_index (Torch.ndim tensor) stack_dim = Ok d ->
  nth d (Torch.shape tensor) 0 = 3 ->
  5 <= Torch.ndim tensor ->
  exists t : KTrajectory,
    from_tensor tensor stack_dim None gtol = Ok t /\
    as_tensor t stack_dim = Ok tensor.
Proof.
  intros Hwf Hd H3 H5.
  pose proof (TorchFacts.norm_index_le _ _ _ Hd) as Hlt. unfold Torch.ndim in Hlt, H5.
  set (s := Torch.remove_at d (Torch.shape tensor)).
  assert (Hlen : length s = length (Torch.shape tensor) - 1)
    by (apply TorchMore.length_remove; exact Hlt).
  set (t := mkKTrajectory (Torch.select tensor d 0) (Torch.select tensor d 1)
                          (Torch.select tensor d 2) gtol None).
  assert (Hs : broadcasted_shape t = Ok s)
    by (unfold broadcasted_shape; apply broadcast_shapes_same).
  exists t. split.
  - rewrite (from_tensor_unfold _ _ d _ _ Hd H3), new_unfold.
    cbn [reduce_repeats repeat_detection_tolerance bind]. fold t. rewrite Hs.
    replace (length s <? 4) with false by (symmetry; apply Nat.ltb_ge; lia).
    reflexivity.
  - assert (Hd' : norm_index (S (length s)) stack_dim = Ok d).
    { replace (S (length s)) with (Torch.ndim tensor)
        by (unfold Torch.ndim; lia). exact Hd. }
    destruct (as_tensor_stacked t stack_dim s d Hs Hd')
      as (ez & ey & ex & Hez & Hey & Hex & _ & _ & _ & Hu).
    rewrite Hu. f_equal.
    assert (Hexp : forall i, Torch.expand (Torch.select tensor d i) s
                             = Ok (Torch.select tensor d i)).
    { intros i. rewrite expand_ok.
      - f_equal. apply (expand_same_shape tensor s).
      - unfold Torch.expandable. cbn [Torch.select Torch.build Torch.shape]. fold s.
        generalize (rev s) as l. induction l as [|a l IH]; [reflexivity|].
        cbn [Torch.expandable_rev]. now rewrite Nat.eqb_refl, IH. }
    cbn [kz ky kx t] in Hez, Hey, Hex.
    rewrite Hexp in Hez, Hey, Hex.
    injection Hez as <-. injection Hey as <-. injection Hex as <-.
    etransitivity; [|exact (TorchMore.build_get tensor Hwf)].
    unfold Torch.stacked. cbn [tl map fold_left length].
    cbn [Torch.select Torch.build Torch.t_dtype Torch.shape]. fold s.
    rewrite !TorchMore.promote_types_idem.
    replace (Torch.insert_at d 3 s) with (Torch.shape tensor)
      by (symmetry; apply TorchMore.insert_remove_shape; assumption).
    apply TorchFacts.build_ext. intros idx Hidx.
    pose proof (Forall2_nth_lt _ _ d Hidx Hlt) as Hi. rewrite H3 in Hi.
    pose proof (Forall2_length Hidx) as Hl.
    assert (Hrem : Forall2 lt (Torch.remove_at d idx) s)
      by (apply TorchMore.Forall2_remove; exact Hidx).
    assert (Hsel : forall i, nth d idx 0 = i ->
              Torch.get (Torch.select tensor d i) (Torch.remove_at d idx)
              = Torch.get tensor idx).
    { intros i Hi'. rewrite TorchMore.get_select by exact Hrem.
      rewrite <- Hi'. rewrite TorchMore.insert_remove by lia. reflexivity. }
    change (Torch.mkTensor (Torch.t_dtype tensor) s
              (map (fun idx0 => Torch.get tensor (Torch.insert_at d ?i idx0))
                   (Torch.indices s)))
      with (Torch.select tensor d i).
    destruct (nth d idx 0) as [|[|[|n]]] eqn:En; cbn [nth]; try lia;
      now apply Hsel.
Qed.

Lemma as_tensor_from_tensor_witness :
  exists t : KTrajectory,
    from_tensor sample_stacked 0 None (1 # 1000) = Ok t /\
    as_tensor t 0 = Ok sample_stacked.
Proof.
  apply (as_tensor_from_tensor sample_stacked 0 0 (1 # 1000)).
  - reflexivity.
  - reflexivity.
  - reflexivity.
  - vm_compute. lia.
Defined.

(** ** Classification, continued *)

Lemma shape_at_missing (ks : Torch.Tensor) :
  Torch.ndim ks < 3 -> shape_at ks (-3) = Err (IndexError "index out of range").
Proof.
  intros H. unfold shape_at, norm_index.
  replace ((0 <=? -3) && (-3 <? Z.of_nat (Torch.ndim ks)))%Z with false by reflexivity.
  replace ((- Z.of_nat (Torch.ndim ks) <=? -3) && (-3 <? 0))%Z with false
    by (symmetry; apply andb_false_iff; left; apply Z.leb_gt; lia).
  reflexivity.
Qed.

Lemma traj_type_row_missing (tol : Q) (m : matrix) (ind : nat) (ks : Torch.Tensor) :
  Torch.ndim ks < 3 ->
  traj_type_row tol m (ind, ks) = Err (IndexError "index out of range").
Proof.
  intros H. unfold traj_type_row. cbn [for_each].
  now rewrite (shape_at_missing ks H).
Qed.

Lemma traj_type_matrix_missing (self : KTrajectory) (tol : Q) :
  ~ has_logical_axes self ->
  traj_type_matrix self tol = Err (IndexError "index out of range").
Proof.
  intros H. unfold traj_type_matrix. cbn [for_each zeros repeat].
  destruct (Nat.lt_ge_cases (Torch.ndim (kz self)) 3) as [Hz|Hz].
  { now rewrite traj_type_row_missing. }
  rewrite traj_type_row_0 by exact Hz. cbn [bind].
  destruct (Nat.lt_ge_cases (Torch.ndim (ky self)) 3) as [Hy|Hy].
  { now rewrite traj_type_row_missing. }
  rewrite traj_type_row_1 by exact Hy. cbn [bind].
  destruct (Nat.lt_ge_cases (Torch.ndim (kx self)) 3) as [Hx|Hx].
  { now rewrite traj_type_row_missing. }
  exfalso. apply H. unfold has_logical_axes. auto.
Qed.

Lemma has_logical_axes_dec (self : KTrajectory) :
  has_logical_axes self \/ ~ has_logical_axes self.
Proof.
  unfold has_logical_axes. lia.
Qed.

Lemma traj_types_ok_axes (self : KTrajectory) (tol : Q) (r : (Z * Z * Z) * (Z * Z * Z)) :
  _traj_types self tol = Ok r -> has_logical_axes self.
Proof.
  intros H. destruct (has_logical_axes_dec self) as [Ha|Ha]; [exact Ha|].
  unfold _traj_types in H. rewrite (traj_type_matrix_missing self tol Ha) in H.
  discriminate.
Qed.

(** X5: the classification returns exactly when each of the three arrays
    has at least three axes; otherwise it raises an IndexError, also on a
    constructed container. *)
Theorem classification_needs_logical_axes (self : KTrajectory) (tolerance : Q) :
  (is_ok (_traj_types self tolerance) = true <-> has_logical_axes self) /\
  (is_ok (type_along_kzyx self) = true <-> has_logical_axes self) /\
  (is_ok (type_along_k210 self) = true <-> has_logical_axes self) /\
  match _traj_types self tolerance with
  | Ok _ => True
  | Err e => e = IndexError "index out of range"
  end.
Proof.
  unfold type_along_kzyx, type_along_k210.
  destruct (has_logical_axes_dec self) as [Ha|Ha].
  - rewrite !(traj_types_cells self _ Ha). cbn [bind is_ok]. tauto.
  - unfold _traj_types. rewrite !(traj_type_matrix_missing self _ Ha).
    cbn [bind is_ok]. repeat split; try discriminate; try contradiction.
    all: intros; contradiction.
Qed.

Ltac flag_cases :=
  unfold flag_cell, direction_type, axis_type, all_length_one, axis_on_grid;
  repeat match goal with
         | |- context [axis_length ?k ?j =? 1] => destruct (axis_length k j =? 1)
         | |- context [values_on_grid ?k ?t] => destruct (values_on_grid k t)
         end;
  reflexivity.

Lemma row_and_direction (ks : Torch.Tensor) (tol : Q) :
  Z.land (Z.land (flag_cell ks tol 0) (flag_cell ks tol 1)) (flag_cell ks tol 2)
  = direction_type ks tol.
Proof. flag_cases. Qed.

Lemma column_and_axis (self : KTrajectory) (tol : Q) (j : nat) :
  Z.land (Z.land (flag_cell (kz self) tol j) (flag_cell (ky self) tol j))
         (flag_cell (kx self) tol j)
  = axis_type self tol j.
Proof. flag_cases. Qed.

Lemma traj_types_closed (self : KTrajectory) (tol : Q) :
  has_logical_axes self ->
  _traj_types self tol
  = Ok ((direction_type (kz self) tol, direction_type (ky self) tol,
         direction_type (kx self) tol),
        (axis_type self tol 0, axis_type self tol 1, axis_type self tol 2)).
Proof.
  intros H. rewrite (traj_types_cells self tol H).
  now rewrite !row_and_direction, !column_and_axis.
Qed.

(** X6: a direction is SINGLE_VALUE and ON_GRID when its array has length
    one along all three logical axes, otherwise ON_GRID when the array is on
    the grid, otherwise neither; a logical axis is SINGLE_VALUE and ON_GRID
    when all three arrays have length one along it, otherwise ON_GRID when
    each array has length one along it or is on the grid, otherwise
    neither. *)
Theorem classification_closed_form (self : KTrajectory) :
  has_logical_axes self ->
  let tolerance := grid_detection_tolerance self in
  type_along_kzyx self
  = Ok (direction_type (kz self) tolerance, direction_type (ky self) tolerance,
        direction_type (kx self) tolerance) /\
  type_along_k210 self
  = Ok (axis_type self tolerance 0, axis_type self tolerance 1,
        axis_type self tolerance 2).
Proof.
  intros H. cbv zeta. unfold type_along_kzyx, type_along_k210.
  rewrite (traj_types_closed self _ H). split; reflexivity.
Qed.

Lemma classification_closed_form_witness :
  let tolerance := grid_detection_tolerance sample_trajectory in
  type_along_kzyx sample_trajectory
  = Ok (direction_type (kz sample_trajectory) tolerance,
        direction_type (ky sample_trajectory) tolerance,
        direction_type (kx sample_trajectory) tolerance) /\
  type_along_k210 sample_trajectory
  = Ok (axis_type sample_trajectory tolerance 0, axis_type sample_trajectory tolerance 1,
        axis_type sample_trajectory tolerance 2).
Proof.
  apply (classification_closed_form sample_trajectory).
  unfold has_logical_axes. vm_compute. lia.
Defined.

Lemma direction_type_consistent (ks : Torch.Tensor) (tol : Q) :
  grid_consistent (direction_type ks tol).
Proof.
  unfold grid_consistent, direction_type.
  destruct (all_length_one ks), (values_on_grid ks tol); auto.
Qed.

Lemma axis_type_consistent (self : KTrajectory) (tol : Q) (j : nat) :
  grid_consistent (axis_type self tol j).
Proof.
  unfold grid_consistent, axis_type.
  destruct (_ && _ && _); [auto|]. destruct (_ && _ && _); auto.
Qed.

(** X7: whenever the classification returns, none of its six results is
    SINGLE_VALUE without ON_GRID: each is empty, ON_GRID, or both flags. *)
Theorem classification_never_single_value_alone
        (self : KTrajectory) (tolerance : Q) (zyx k210 : Z * Z * Z) :
  _traj_types self tolerance = Ok (zyx, k210) ->
  grid_consistent (fst (fst zyx)) /\ grid_consistent (snd (fst zyx)) /\
  grid_consistent (snd zyx) /\
  grid_consistent (fst (fst k210)) /\ grid_consistent (snd (fst k210)) /\
  grid_consistent (snd k210).
Proof.
  intros H. pose proof (traj_types_ok_axes _ _ _ H) as Ha.
  rewrite (traj_types_closed self tolerance Ha) in H. injection H as <- <-.
  cbn [fst snd].
  repeat split; auto using direction_type_consistent, axis_type_consistent.
Qed.

Lemma classification_never_single_value_alone_witness :
  grid_consistent 3 /\ grid_consistent 3 /\ grid_consistent 2 /\
  grid_consistent 3 /\ grid_consistent 3 /\ grid_consistent 2.
Proof.
  apply (classification_never_single_value_alone sample_trajectory (1 # 2)
           (3, 3, 2)%Z (3, 3, 2)%Z).
  vm_compute. reflexivity.
Defined.

Lemma values_on_grid_mono (ks : Torch.Tensor) (tol tol' : Q) :
  (tol <= tol')%Q -> values_on_grid ks tol = true -> values_on_grid ks tol' = true.
Proof.
  intros Hle. unfold values_on_grid. rewrite !orb_true_iff, !forallb_forall.
  intros [H|H]; [now left | right].
  intros x Hx. apply Qle_bool_iff.
  apply Qle_trans with (Torch.scalar_as (Torch.t_dtype ks) tol);
    [|now apply FloatFacts.scalar_as_mono].
  apply Qle_bool_iff. now apply H.
Qed.

Lemma direction_type_mono (ks : Torch.Tensor) (tol tol' : Q) :
  (tol <= tol')%Q ->
  flags_included (direction_type ks tol) (direction_type ks tol').
Proof.
  intros Hle. pose proof (values_on_grid_mono ks tol tol' Hle) as H.
  unfold flags_included, direction_type.
  destruct (all_length_one ks); [reflexivity|].
  destruct (values_on_grid ks tol); [rewrite H by reflexivity; reflexivity|].
  destruct (values_on_grid ks tol'); reflexivity.
Qed.

Lemma axis_type_mono (self : KTrajectory) (tol tol' : Q) (j : nat) :
  (tol <= tol')%Q ->
  flags_included (axis_type self tol j) (axis_type self tol' j).
Proof.
  intros Hle.
  pose proof (values_on_grid_mono (kz self) tol tol' Hle) as Hz.
  pose proof (values_on_grid_mono (ky self) tol tol' Hle) as Hy.
  pose proof (values_on_grid_mono (kx self) tol tol' Hle) as Hx.
  unfold flags_included, axis_type, axis_on_grid.
  destruct (axis_length (kz self) j =? 1), (axis_length (ky self) j =? 1),
           (axis_length (kx self) j =? 1);
    destruct (values_on_grid (kz self) tol);
    try (rewrite Hz by reflexivity);
    destruct (values_on_grid (ky self) tol);
    try (rewrite Hy by reflexivity);
    destruct (values_on_grid (kx self) tol);
    try (rewrite Hx by reflexivity);
    try reflexivity;
    destruct (values_on_grid (kz self) tol'), (values_on_grid (ky self) tol'),
             (values_on_grid (kx self) tol');
    reflexivity.
Qed.

(** X8: enlarging the tolerance never removes a flag: every flag of the
    classification with a tolerance is a flag of the classification with a
    larger one. *)
Theorem classification_monotone_in_tolerance (self : KTrajectory) (tol tol' : Q) :
  has_logical_axes self -> (tol <= tol')%Q ->
  exists r r' : (Z * Z * Z) * (Z * Z * Z),
    _traj_types self tol = Ok r /\ _traj_types self tol' = Ok r' /\
    triple_included (fst r) (fst r') /\ triple_included (snd r) (snd r').
Proof.
  intros Ha Hle. do 2 eexists.
  split; [exact (traj_types_closed self tol Ha)|].
  split; [exact (traj_types_closed self tol' Ha)|].
  unfold triple_included. cbn [fst snd].
  repeat split; auto using direction_type_mono, axis_type_mono.
Qed.

Lemma classification_monotone_in_tolerance_witness :
  exists r r' : (Z * Z * Z) * (Z * Z * Z),
    _traj_types sample_trajectory (1 # 1000) = Ok r /\
    _traj_types sample_trajectory (1 # 2) = Ok r' /\
    triple_included (fst r) (fst r') /\ triple_included (snd r) (snd r').
Proof.
  apply (classification_monotone_in_tolerance sample_trajectory (1 # 1000) (1 # 2)).
  - unfold has_logical_axes. vm_compute. lia.
  - vm_compute. discriminate.
Defined.

Lemma integer_on_grid (ks : Torch.Tensor) (tol : Q) :
  Torch.is_floating_point ks = false -> values_on_grid ks tol = true.
Proof.
  intros H. unfold values_on_grid. now rewrite H.
Qed.

(** X9: arrays that are not of a floating-point type are on the grid for
    every tolerance, a negative one included: all six results of the
    classification of a container of such arrays carry ON_GRID. *)
Theorem integer_arrays_are_on_grid (self : KTrajectory) (tolerance : Q) :
  has_logical_axes self ->
  Torch.is_floating_point (kz self) = false ->
  Torch.is_floating_point (ky self) = false ->
  Torch.is_floating_point (kx self) = false ->
  exists z y x k2 k1 k0 : Z,
    _traj_types self tolerance = Ok ((z, y, x), (k2, k1, k0)) /\
    Forall (fun v => TrajType.has TrajType.ONGRID v = true) [z; y; x; k2; k1; k0].
Proof.
  intros Ha Hz Hy Hx. do 6 eexists.
  split; [exact (traj_types_closed self tolerance Ha)|].
  unfold direction_type, axis_type, axis_on_grid.
  rewrite !(integer_on_grid _ tolerance Hz), !(integer_on_grid _ tolerance Hy),
          !(integer_on_grid _ tolerance Hx).
  rewrite !orb_true_r. cbn [andb].
  repeat constructor.
  all: match goal with
       | |- context [if ?b then _ else _] => destruct b; reflexivity
       end.
Qed.

Lemma integer_arrays_are_on_grid_witness :
  exists z y x k2 k1 k0 : Z,
    _traj_types integer_trajectory (-1) = Ok ((z, y, x), (k2, k1, k0)) /\
    Forall (fun v => TrajType.has TrajType.ONGRID v = true) [z; y; x; k2; k1; k0].
Proof.
  apply (integer_arrays_are_on_grid integer_trajectory (-1)).
  - unfold has_logical_axes. vm_compute. lia.
  - reflexivity.
  - reflexivity.
  - reflexivity.
Defined.

(** ** Construction and conversion, continued *)

Lemma reduce_repeats_floating (self stored : KTrajectory) (tol : Q) :
  repeat_detection_tolerance self = Some tol ->
  reduce_repeats self = Ok stored ->
  Torch.is_floating_point (kz stored) = true /\
  Torch.is_floating_point (ky stored) = true /\
  Torch.is_floating_point (kx stored) = true.
Proof.
  intros Htol. unfold reduce_repeats. rewrite Htol.
  destruct (remove_repeat (kz self) tol); cbn [bind]; [|discriminate].
  destruct (remove_repeat (ky self) tol); cbn [bind]; [|discriminate].
  destruct (remove_repeat (kx self) tol); cbn [bind]; [|discriminate].
  intros [= <-]. cbn [kz ky kx]. repeat split; apply as_any_float_is_floating.
Qed.

(** X10: whatever dtype is asked for, an integer one included, the arrays
    of the container returned by [to], [cuda] or [cpu] are of a
    floating-point type, and the container carries the default
    tolerances. *)
Theorem conversions_return_floating_arrays
        (self t : KTrajectory) (dtype : option Torch.dtype) :
  to self dtype = Ok t \/ cuda self = Ok t \/ cpu self = Ok t ->
  Torch.is_floating_point (kz t) = true /\
  Torch.is_floating_point (ky t) = true /\
  Torch.is_floating_point (kx t) = true /\
  grid_detection_tolerance t = default_grid_detection_tolerance /\
  repeat_detection_tolerance t = default_repeat_detection_tolerance.
Proof.
  intros H.
  assert (Hnew : exists z y x, new z y x default_grid_detection_tolerance
                                   default_repeat_detection_tolerance = Ok t).
  { unfold to, cuda, cpu in H. destruct H as [H|[H|H]]; eauto. }
  destruct Hnew as (z & y & x & Hnew).
  destruct (new_tolerances _ _ _ _ _ _ Hnew) as [Hg Hr].
  destruct (reduce_repeats_floating
              (mkKTrajectory z y x default_grid_detection_tolerance
                             default_repeat_detection_tolerance)
              t (1 # 1000) eq_refl
              (new_ok_stored _ _ _ _ _ _ Hnew)) as (Fz & Fy & Fx).
  auto.
Qed.

Lemma conversions_return_floating_arrays_witness :
  let t := mkKTrajectory (scalar4 0) (scalar4 0)
                         (Torch.mkTensor Torch.float32 [1; 1; 1; 2] [0; 1]%Q)
                         (1 # 1000) (Some (1 # 1000)) in
  Torch.is_floating_point (kz t) = true /\
  Torch.is_floating_point (ky t) = true /\
  Torch.is_floating_point (kx t) = true /\
  grid_detection_tolerance t = default_grid_detection_tolerance /\
  repeat_detection_tolerance t = default_repeat_detection_tolerance.
Proof.
  apply (conversions_return_floating_arrays sample_trajectory _ (Some Torch.int32)).
  left. vm_compute. reflexivity.
Defined.

(** X11: construction keeps the number of axes of each array, and the
    broadcast shape of a constructed container is defined, with as many
    axes as the longest of the arrays passed and at least four. *)
Theorem construction_keeps_ranks (z y x : Torch.Tensor) (g : Q) (r : option Q)
        (t : KTrajectory) :
  new z y x g r = Ok t ->
  Torch.ndim (kz t) = Torch.ndim z /\
  Torch.ndim (ky t) = Torch.ndim y /\
  Torch.ndim (kx t) = Torch.ndim x /\
  exists s : list nat,
    broadcasted_shape t = Ok s /\
    length s = Nat.max (Torch.ndim x) (Nat.max (Torch.ndim y) (Torch.ndim z)) /\
    4 <= length s.
Proof.
  intros H.
  destruct (reduce_repeats_ndim _ _ (new_ok_stored _ _ _ _ _ _ H)) as (Nz & Ny & Nx).
  cbn [kz ky kx] in Nz, Ny, Nx.
  destruct (constructed_broadcasts _ _ _ _ _ _ H) as (s & Hs & Hlen).
  repeat (split; [assumption|]).
  exists s. split; [exact Hs|]. split; [|exact Hlen].
  pose proof (NumpyFacts.broadcast_shapes_ok (Torch.shape (kx t))
                (Torch.shape (ky t)) (Torch.shape (kz t))) as Hb.
  unfold broadcasted_shape in Hs. rewrite Hs in Hb. destruct Hb as [_ Hb].
  unfold Torch.ndim in *. lia.
Qed.

Lemma construction_keeps_ranks_witness :
  Torch.ndim (kz sample_trajectory) = Torch.ndim (scalar4 0) /\
  Torch.ndim (ky sample_trajectory) = Torch.ndim (scalar4 0) /\
  Torch.ndim (kx sample_trajectory) = Torch.ndim quarter_line /\
  exists s : list nat,
    broadcasted_shape sample_trajectory = Ok s /\
    length s = Nat.max (Torch.ndim quarter_line)
                       (Nat.max (Torch.ndim (scalar4 0)) (Torch.ndim (scalar4 0))) /\
    4 <= length s.
Proof.
  apply (construction_keeps_ranks (scalar4 0) (scalar4 0) quarter_line (1 # 2)
           default_repeat_detection_tolerance).
  vm_compute. reflexivity.
Defined.

(** * Properties of the constraints operator *)

Module ConstraintsOpFacts.
Import ConstraintsOp.

Lemma le_zero_accepted (beta : pyfloat) :
  le beta (Fin 0) = false <-> accepted_beta beta.
Proof.
  destruct beta as [q| | |]; cbn [le accepted_beta]; try (split; [auto | reflexivity]).
  - split.
    + intros H. apply Qnot_le_lt. intros Hle. apply Qle_bool_iff in Hle. congruence.
    + intros H. destruct (Qle_bool q 0) eqn:E; [|reflexivity].
      apply Qle_bool_iff in E. exfalso. exact (Qlt_not_le _ _ H E).
  - split; [discriminate | contradiction].
Qed.

Lemma ge_false_below (lb ub : pyfloat) :
  isnan lb || isnan ub = false ->
  (ge lb ub = false <-> strictly_below lb ub).
Proof.
  unfold ge. destruct lb as [a| | |], ub as [b| | |]; cbn; try discriminate; intros _;
    try (split; [auto | reflexivity]); try (split; [discriminate | contradiction]).
  split.
  - intros H. apply Qnot_le_lt. intros Hle. apply Qle_bool_iff in Hle. congruence.
  - intros H. destruct (Qle_bool b a) eqn:E; [|reflexivity].
    apply Qle_bool_iff in E. exfalso. exact (Qlt_not_le _ _ H E).
Qed.

Lemma strictly_below_not_nan (lb ub : pyfloat) :
  strictly_below lb ub -> isnan lb || isnan ub = false.
Proof.
  destruct lb, ub; cbn; auto; contradiction.
Qed.

Lemma check_bound_spec (bound : option pyfloat * option pyfloat) :
  match check_bound bound with
  | Done _ => admissible bound
  | Raise e => (exists msg, e = ValueError msg) /\ ~ admissible bound
  end.
Proof.
  destruct bound as [[lb|] [ub|]]; cbn [check_bound admissible]; try exact I.
  destruct (isnan lb || isnan ub) eqn:En.
  - split; [eauto|]. intros H. apply strictly_below_not_nan in H. congruence.
  - destruct (ge lb ub) eqn:Eg.
    + split; [eauto|]. intros H. apply (ge_false_below lb ub En) in H. congruence.
    + now apply (ge_false_below lb ub En).
Qed.

Lemma check_bounds_spec (bounds : list (option pyfloat * option pyfloat)) :
  match check_bounds bounds with
  | Done _ => Forall admissible bounds
  | Raise e => (exists msg, e = ValueError msg) /\ ~ Forall admissible bounds
  end.
Proof.
  induction bounds as [|b bounds IH]; cbn [check_bounds]; [constructor|].
  pose proof (check_bound_spec b) as Hb.
  destruct (check_bound b) as [[]|e]; cbn [and_then].
  - destruct (check_bounds bounds) as [[]|e].
    + now constructor.
    + destruct IH as [He Hn]. split; [exact He|].
      intros H. inversion H. contradiction.
  - destruct Hb as [He Hn]. split; [exact He|].
    intros H. inversion H. contradiction.
Qed.

(** X12: the constructor of the operator accepts its arguments exactly when
    both [beta] parameters are positive or not-a-number and every pair of
    bounds of which both are given has its lower bound strictly below the
    upper one, neither being not-a-number; it then stores the parameters and
    the lower and upper bounds in the order given, and otherwise raises a
    ValueError. *)
Theorem init_accepts_iff (bounds : list (option pyfloat * option pyfloat))
        (beta_sigmoid beta_softplus : pyfloat) :
  match __init__ bounds beta_sigmoid beta_softplus with
  | Done op =>
      accepted_beta beta_sigmoid /\ accepted_beta beta_softplus /\
      Forall admissible bounds /\
      op = mkConstraintsOp beta_sigmoid beta_softplus (map fst bounds) (map snd bounds)
  | Raise e =>
      (exists msg, e = ValueError msg) /\
      ~ (accepted_beta beta_sigmoid /\ accepted_beta beta_softplus /\
         Forall admissible bounds)
  end.
Proof.
  unfold __init__.
  destruct (le beta_sigmoid (Fin 0)) eqn:E1.
  { split; [eauto|]. intros (H & _). apply le_zero_accepted in H. congruence. }
  destruct (le beta_softplus (Fin 0)) eqn:E2.
  { split; [eauto|]. intros (_ & H & _). apply le_zero_accepted in H. congruence. }
  apply le_zero_accepted in E1, E2.
  pose proof (check_bounds_spec bounds) as Hb.
  destruct (check_bounds bounds) as [[]|e]; cbn [and_then].
  - auto.
  - destruct Hb as [He Hn]. split; [exact He|]. tauto.
Qed.

Section Arity.

Context {T : Type} {ops : TensorOps T}.

Lemma softplus_done (x : T) (beta : pyfloat) :
  accepted_beta beta -> exists t, softplus x beta = Done t.
Proof.
  unfold softplus. destruct beta as [q| | |]; cbn [accepted_beta one_over];
    try (intros _; eexists; reflexivity).
  intros H. destruct (Qeq_bool q 0) eqn:E.
  - apply Qeq_bool_iff in E. rewrite E in H. exfalso. exact (Qlt_irrefl _ H).
  - eexists. reflexivity.
Qed.

Lemma forward_item_done (self : ConstraintsOp) (item : T) (lb ub : option pyfloat) :
  accepted_beta (beta_softplus self) ->
  exists t, forward_item self item lb ub = Done (Some t).
Proof.
  intros H. unfold forward_item.
  destruct (softplus_done item _ H) as [s1 Hs1].
  destruct (softplus_done (neg item) _ H) as [s2 Hs2].
  rewrite Hs1, Hs2. cbn [and_then].
  destruct lb as [[a| | |]|], ub as [[b| | |]|]; cbn; eexists; reflexivity.
Qed.

Lemma inverse_item_some (self : ConstraintsOp) (item : T) (lb ub : option pyfloat) :
  exists t, inverse_item self item lb ub = Some t.
Proof.
  unfold inverse_item.
  destruct lb as [[a| | |]|], ub as [[b| | |]|]; cbn; eexists; reflexivity.
Qed.

Lemma forward_loop_done (self : ConstraintsOp)
      (zipped : list (T * (option pyfloat * option pyfloat))) (acc : list T) :
  accepted_beta (beta_softplus self) ->
  exists ys,
    forward_loop self zipped acc = Done (acc ++ ys) /\
    Forall2 (fun p t => forward_item self (fst p) (fst (snd p)) (snd (snd p))
                        = Done (Some t)) zipped ys.
Proof.
  intros H. revert acc. induction zipped as [|[item [lb ub]] rest IH]; intros acc.
  - exists []. split; [cbn; now rewrite app_nil_r | constructor].
  - destruct (forward_item_done self item lb ub H) as [t Ht].
    destruct (IH (acc ++ [t])) as (ys & Hys & Hall).
    exists (t :: ys). split.
    + cbn [forward_loop]. rewrite Ht. cbn [and_then]. rewrite Hys.
      now rewrite <- app_assoc.
    + constructor; [exact Ht | exact Hall].
Qed.

Lemma inverse_loop_spec (self : ConstraintsOp)
      (zipped : list (T * (option pyfloat * option pyfloat))) (acc : list T) :
  exists xs,
    inverse_loop self zipped acc = acc ++ xs /\
    Forall2 (fun p t => inverse_item self (fst p) (fst (snd p)) (snd (snd p))
                        = Some t) zipped xs.
Proof.
  revert acc. induction zipped as [|[item [lb ub]] rest IH]; intros acc.
  - exists []. split; [cbn; now rewrite app_nil_r | constructor].
  - destruct (inverse_item_some self item lb ub) as [t Ht].
    destruct (IH (acc ++ [t])) as (xs & Hxs & Hall).
    exists (t :: xs). split.
    + cbn [inverse_loop]. rewrite Ht, Hxs. now rewrite <- app_assoc.
    + constructor; [exact Ht | exact Hall].
Qed.

Lemma length_zipped (x : list T) (lower upper : list (option pyfloat)) :
  length (combine x (combine lower upper))
  = Nat.min (length x) (Nat.min (length lower) (length upper)).
Proof.
  now rewrite !length_combine.
Qed.

Lemma length_with_rest (ys x : list T) (n : nat) :
  length ys = Nat.min (length x) n ->
  length (ys ++ skipn (length ys) x) = length x /\
  skipn n (ys ++ skipn (length ys) x) = skipn n x.
Proof.
  intros H. split.
  - rewrite length_app, length_skipn. lia.
  - destruct (Nat.le_gt_cases (length x) n) as [Hle|Hgt].
    + rewrite (@skipn_all2 _ n x) by lia. apply skipn_all2.
      rewrite length_app, length_skipn. lia.
    + assert (Hn : length ys = n) by lia.
      rewrite skipn_app, Hn, Nat.sub_diag, skipn_O.
      rewrite (skipn_all2 ys) by lia. reflexivity.
Qed.

(** X13: on an operator with an accepted [beta_softplus], as [__init__]
    leaves it, [forward] never raises and returns as many tensors as it is
    given: the tensors that have a pair of bounds are transformed one by one,
    each under its own pair, and those beyond the bounds are passed on
    unchanged. *)
Theorem forward_keeps_arity (self : ConstraintsOp) (x : list T) :
  accepted_beta (beta_softplus self) ->
  exists ys : list T,
    forward self x = Done (ys ++ skipn (length ys) x) /\
    Forall2 (fun p t => forward_item self (fst p) (fst (snd p)) (snd (snd p))
                        = Done (Some t))
            (combine x (combine (lower_bounds self) (upper_bounds self))) ys /\
    length (ys ++ skipn (length ys) x) = length x /\
    skipn (Nat.min (length (lower_bounds self)) (length (upper_bounds self)))
          (ys ++ skipn (length ys) x)
    = skipn (Nat.min (length (lower_bounds self)) (length (upper_bounds self))) x.
Proof.
  intros H.
  destruct (forward_loop_done self
              (combine x (combine (lower_bounds self) (upper_bounds self))) [] H)
    as (ys & Hys & Hall).
  exists ys. split; [unfold forward; rewrite Hys; reflexivity|].
  split; [exact Hall|].
  apply length_with_rest.
  rewrite <- (Forall2_length Hall). apply length_zipped.
Qed.

(** X14: [inverse] returns as many tensors as it is given: the tensors that
    have a pair of bounds are transformed back one by one, each under its own
    pair, and those beyond the bounds are passed on unchanged. *)
Theorem inverse_keeps_arity (self : ConstraintsOp) (x_constrained : list T) :
  exists xs : list T,
    inverse self x_constrained = xs ++ skipn (length xs) x_constrained /\
    Forall2 (fun p t => inverse_item self (fst p) (fst (snd p)) (snd (snd p)) = Some t)
            (combine x_constrained (combine (lower_bounds self) (upper_bounds self))) xs /\
    length (inverse self x_constrained) = length x_constrained /\
    skipn (Nat.min (length (lower_bounds self)) (length (upper_bounds self)))
          (inverse self x_constrained)
    = skipn (Nat.min (length (lower_bounds self)) (length (upper_bounds self)))
            x_constrained.
Proof.
  destruct (inverse_loop_spec self
              (combine x_constrained (combine (lower_bounds self) (upper_bounds self))) [])
    as (xs & Hxs & Hall).
  assert (Hinv : inverse self x_constrained = xs ++ skipn (length xs) x_constrained)
    by (unfold inverse; rewrite Hxs; reflexivity).
  exists xs. split; [exact Hinv|]. split; [exact Hall|].
  rewrite Hinv. apply length_with_rest.
  rewrite <- (Forall2_length Hall). apply length_zipped.
Qed.

Lemma zipped_items_with_rest {B : Type} (x : list T) (l : list B) :
  map fst (combine x l) ++ skipn (length (map fst (combine x l))) x = x.
Proof.
  revert l. induction x as [|a x IH]; intros [|b l]; try reflexivity.
  cbn [combine map fst length skipn app]. f_equal. apply IH.
Qed.

(** X15: with every pair of bounds left as (None, None), [forward] and
    [inverse] return their arguments unchanged. *)
Theorem unbounded_is_identity (self : ConstraintsOp) (x : list T) :
  Forall (fun b => b = (None, None))
         (combine (lower_bounds self) (upper_bounds self)) ->
  forward self x = Done x /\ inverse self x = x.
Proof.
  intros Hb.
  assert (Hf : forall rest acc,
             Forall (fun p : T * (option pyfloat * option pyfloat) =>
                       snd p = (None, None)) rest ->
             forward_loop self rest acc = Done (acc ++ map fst rest) /\
             inverse_loop self rest acc = acc ++ map fst rest).
  { induction rest as [|[item [lb ub]] rest IH]; intros acc Hr.
    - cbn. now rewrite app_nil_r.
    - inversion Hr as [|p l Hp Hrest]; subst. cbn [snd] in Hp.
      injection Hp as -> ->.
      cbn [forward_loop inverse_loop map fst].
      unfold forward_item, inverse_item. cbn.
      destruct (IH (acc ++ [item]) Hrest) as [-> ->].
      now rewrite <- !app_assoc. }
  assert (Hz : Forall (fun p : T * (option pyfloat * option pyfloat) =>
                         snd p = (None, None))
                      (combine x (combine (lower_bounds self) (upper_bounds self)))).
  { apply Forall_forall. intros [item b] Hin. cbn [snd].
    apply in_combine_r in Hin. rewrite Forall_forall in Hb. now apply Hb. }
  destruct (Hf _ [] Hz) as [Hfw Hiv].
  unfold forward, inverse. rewrite Hfw, Hiv. cbn [and_then app].
  split; [f_equal|]; apply zipped_items_with_rest.
Qed.

End Arity.

Lemma forward_keeps_arity_witness :
  exists ys : list unit,
    forward (ops := unit_ops)
            (mkConstraintsOp default_beta default_beta
                             [Some (Fin 0); None] [Some (Fin 1); None])
            [tt; tt; tt]
    = Done (ys ++ skipn (length ys) [tt; tt; tt]) /\
    Forall2 (fun p t =>
               forward_item (ops := unit_ops)
                            (mkConstraintsOp default_beta default_beta
                                             [Some (Fin 0); None] [Some (Fin 1); None])
                            (fst p) (fst (snd p)) (snd (snd p))
               = Done (Some t))
            (combine [tt; tt; tt] (combine [Some (Fin 0); None] [Some (Fin 1); None])) ys /\
    length (ys ++ skipn (length ys) [tt; tt; tt]) = 3 /\
    skipn 2 (ys ++ skipn (length ys) [tt; tt; tt]) = skipn 2 [tt; tt; tt].
Proof.
  apply (forward_keeps_arity (ops := unit_ops)
           (mkConstraintsOp default_beta default_beta
                            [Some (Fin 0); None] [Some (Fin 1); None])
           [tt; tt; tt]).
  vm_compute. reflexivity.
Defined.

Lemma unbounded_is_identity_witness :
  forward (ops := unit_ops)
          (mkConstraintsOp default_beta default_beta [None; None] [None; None])
          [tt; tt; tt] = Done [tt; tt; tt] /\
  inverse (ops := unit_ops)
          (mkConstraintsOp default_beta default_beta [None; None] [None; None])
          [tt; tt; tt] = [tt; tt; tt].
Proof.
  apply (unbounded_is_identity (ops := unit_ops)
           (mkConstraintsOp default_beta default_beta [None; None] [None; None])
           [tt; tt; tt]).
  simpl. repeat constructor.
Defined.

(** X16: (None, None) is the only pair of bounds under which [forward] and
    [inverse] leave every tensor untouched, whatever the tensor library; in
    particular a lower bound of minus infinity with an upper bound of None or
    plus infinity goes through the transformation for a lower bound. *)
Theorem identity_only_without_bounds (lb ub : option pyfloat) :
  ((forall (T : Type) (ops : TensorOps T) (self : ConstraintsOp) (item : T),
       accepted_beta (beta_softplus self) ->
       forward_item self item lb ub = Done (Some item)) <->
   lb = None /\ ub = None) /\
  ((forall (T : Type) (ops : TensorOps T) (self : ConstraintsOp) (item : T),
       inverse_item self item lb ub = Some item) <->
   lb = None /\ ub = None) /\
  forall (T : Type) (ops : TensorOps T) (self : ConstraintsOp) (item : T),
    (ub = None \/ ub = Some PosInf) ->
    forward_item self item (Some NegInf) ub
    = and_then (softplus item (beta_softplus self))
               (fun s => Done (Some (scalar_add NegInf s))).
Proof.
  split; [|split].
  - split.
    + intros H.
      specialize (H bool marking_ops
                    (mkConstraintsOp default_beta default_beta [] []) false).
      assert (Ha : accepted_beta default_beta) by (vm_compute; reflexivity).
      specialize (H Ha).
      destruct lb as [[a| | |]|], ub as [[b| | |]|]; cbn in H; try discriminate.
      split; reflexivity.
    + intros [-> ->] T ops self item _. reflexivity.
  - split.
    + intros H.
      specialize (H bool marking_ops
                    (mkConstraintsOp default_beta default_beta [] []) false).
      destruct lb as [[a| | |]|], ub as [[b| | |]|]; cbn in H; try discriminate.
      split; reflexivity.
    + intros [-> ->] T ops self item. reflexivity.
  - intros T ops self item [-> | ->]; reflexivity.
Qed.

End ConstraintsOpFacts.
